(** * yiigo: the MySQL helper (mysql.go)

    A shallow embedding of the statement builders, the executor methods and
    the transaction coordinator of [mysql.go], with the properties of the
    specification proved about it.

    Go's [map[string]interface{}] (the type [X]) is a [gmap string value];
    the dynamic type carried by an [interface{}] is a constructor of [value];
    a failing type assertion, a nil dereference, a write to a nil map and
    [panic(...)] are the [Panic] outcome of [result].  The calls to the
    collaborators (configuration, logger, sqlx, the driver) are fields of a
    [world] and every call is recorded, with its reply, in a trace. *)

From stdpp Require Import gmap strings list fin_maps pretty.

Set Warnings "-register-all".

Open Scope string_scope.
Open Scope list_scope.

(** ** Values of type [interface{}] *)

(** One constructor per dynamic type the code asserts, [VNil] for the nil
    interface, and [VOther ty] for a value of any other dynamic type (named
    [ty]).  A [*expr] may be the nil pointer: [VExprPtr None]. *)
Inductive value : Type :=
| VNil
| VString (s : string)
| VInt (n : Z)
| VExprPtr (p : option expr)
| VStrings (l : list string)
| VSlice (l : list value)
| VMap (m : gmap string value)
| VMaps (l : list (gmap string value))
| VOther (ty : string)
with expr : Type :=
| mkExpr (expr_text : string) (expr_args : list value).

(** [type X map[string]interface{}] *)
Abbreviation X := (gmap string value).

(** The fields [expr] and [args] of [struct expr]. *)
Definition expr_text (e : expr) : string := let 'mkExpr s _ := e in s.
Definition expr_args (e : expr) : list value := let 'mkExpr _ a := e in a.

(** [func Expr(expression string, args ...interface{}) *expr] *)
Definition Expr (expression : string) (args : list value) : value :=
  VExprPtr (Some (mkExpr expression args)).

(** ** Outcomes *)

Inductive panic : Type :=
| PanicTypeAssertion            (* interface conversion: v.(T) on another type *)
| PanicNilDereference           (* field access through a nil pointer *)
| PanicNilMap                   (* assignment to entry in nil map *)
| PanicIndex                    (* index out of range *)
| PanicMsg (msg : string).      (* panic(msg) *)

Inductive result (A : Type) : Type :=
| Ret (a : A)
| Panic (p : panic).
Arguments Ret {A} a.
Arguments Panic {A} p.

#[global] Instance result_ret : MRet result := @Ret.
#[global] Instance result_bind : MBind result := fun A B f r =>
  match r with
  | Ret a => f a
  | Panic p => Panic p
  end.

Definition is_Ret {A} (r : result A) : bool :=
  match r with Ret _ => true | Panic _ => false end.

(** [for _, x := range l { acc = f(acc, x) }] where the body may panic. *)
Fixpoint foldlM {A B} (f : A -> B -> result A) (acc : A) (l : list B) : result A :=
  match l with
  | [] => Ret acc
  | x :: l' => acc' ← f acc x; foldlM f acc' l'
  end.

(** ** Type assertions [v.(T)] *)

Definition assert_string (v : value) : result string :=
  match v with VString s => Ret s | _ => Panic PanicTypeAssertion end.
Definition assert_int (v : value) : result Z :=
  match v with VInt n => Ret n | _ => Panic PanicTypeAssertion end.
Definition assert_strings (v : value) : result (list string) :=
  match v with VStrings l => Ret l | _ => Panic PanicTypeAssertion end.
Definition assert_slice (v : value) : result (list value) :=
  match v with VSlice l => Ret l | _ => Panic PanicTypeAssertion end.
Definition assert_X (v : value) : result X :=
  match v with VMap m => Ret m | _ => Panic PanicTypeAssertion end.
Definition assert_Xs (v : value) : result (list X) :=
  match v with VMaps l => Ret l | _ => Panic PanicTypeAssertion end.

Definition is_string (v : value) : bool :=
  match v with VString _ => true | _ => false end.
Definition is_int (v : value) : bool :=
  match v with VInt _ => true | _ => false end.
Definition is_strings (v : value) : bool :=
  match v with VStrings _ => true | _ => false end.
Definition is_slice (v : value) : bool :=
  match v with VSlice _ => true | _ => false end.
Definition is_X (v : value) : bool :=
  match v with VMap _ => true | _ => false end.
Definition is_Xs (v : value) : bool :=
  match v with VMaps _ => true | _ => false end.
Definition is_nil_expr (v : value) : bool :=
  match v with VExprPtr None => true | _ => false end.

(** The entry under [k], when there is one, has the dynamic type [p]. *)
Definition key_typed (p : value -> bool) (q : X) (k : string) : bool :=
  match q !! k with Some v => p v | None => true end.

(** ** Iteration over a map *)

(** [for k, v := range m] visits every entry once, in an order the language
    leaves open: an enumeration of the entries, one per map. *)
Record map_order : Type := MapOrder {
  range : X -> list (string * value);
  range_perm : forall m, range m ≡ₚ map_to_list m
}.

(** The order in which [gmap] stores the entries is one such order. *)
Definition stored_order : map_order :=
  {| range := map_to_list; range_perm := fun m => reflexivity _ |}.

(** ** The receiver and its table prefix *)

Record MySQL : Type := mkMySQL { DB : string; Table : string }.

Section Builders.

(** [GetEnvString(section, key, default)] of the configuration package. *)
Variable GetEnvString : string -> string -> string -> string.
Variable order : map_order.

Definition getPrefix (m : MySQL) : string :=
  let dbname := DB m in
  let dbname := if decide (dbname = "") then "db" else dbname in
  let prefix := GetEnvString dbname "prefix" "" in
  prefix.

(** [tables[0]] *)
Definition index0 (tables : list string) : result string :=
  match tables with t :: _ => Ret t | [] => Panic PanicIndex end.

Definition buildInsert (m : MySQL) (data : X) (tables : list string)
  : result (string * list value) :=
  let tables := if decide (length tables = 0) then tables ++ [Table m] else tables in
  let prefix := getPrefix m in
  let '(columns, placeholders, binds) :=
    foldl (fun '(columns, placeholders, binds) '(k, v) =>
             (columns ++ [k], placeholders ++ ["?"], binds ++ [v]))
          ([], [], []) (range order data) in
  table ← index0 tables;
  let sql := "INSERT INTO " +:+ prefix +:+ table +:+ " (" +:+ String.concat "," columns
             +:+ ") VALUES (" +:+ String.concat "," placeholders +:+ ")" in
  Ret (sql, binds).

Definition buildBatchInsert (m : MySQL) (columns : list string) (data : list X)
    (tables : list string) : result (string * list value) :=
  let tables := if decide (length tables = 0) then tables ++ [Table m] else tables in
  let prefix := getPrefix m in
  let '(placeholders, binds) :=
    foldl (fun '(placeholders, binds) (v : X) =>
             let '(binds, bindvars) :=
               foldl (fun '(binds, bindvars) column =>
                        (binds ++ [default VNil (v !! column)], bindvars ++ ["?"]))
                     (binds, []) columns in
             (placeholders ++ ["(" +:+ String.concat "," bindvars +:+ ")"], binds))
          ([], []) data in
  table ← index0 tables;
  let sql := "INSERT INTO " +:+ prefix +:+ table +:+ " (" +:+ String.concat "," columns
             +:+ ") VALUES " +:+ String.concat "," placeholders in
  Ret (sql, binds).

(** One iteration of the loop over the data map in [buildUpdate]. *)
Definition update_step (acc : list string * list value) (kv : string * value)
  : result (list string * list value) :=
  let '(set, binds) := acc in
  let '(k, v) := kv in
  match v with
  | VExprPtr p =>
      match p with
      | Some e => Ret (set ++ [k +:+ " = " +:+ expr_text e], binds ++ expr_args e)
      | None => Panic PanicNilDereference
      end
  | _ => Ret (set ++ [k +:+ " = ?"], binds ++ [v])
  end.

(** The two [fmt.Println] calls at the end of [buildUpdate] write to the
    standard output and leave the returned pair alone; the executor model
    below records them as [EvPrintln] events. *)
Definition buildUpdate (m : MySQL) (query data : X) : result (string * list value) :=
  let table := Table m in
  let prefix := getPrefix m in
  let clauses : list string := [] in
  let set : list string := [] in
  let binds : list value := [] in
  table ← match query !! "table" with
          | Some v => assert_string v
          | None => Ret table
          end;
  let clauses := clauses ++ ["UPDATE " +:+ prefix +:+ table] in
  '(set, binds) ← foldlM update_step (set, binds) (range order data);
  let clauses := clauses ++ ["SET " +:+ String.concat "," set] in
  clauses ← match query !! "where" with
            | Some v => w ← assert_string v; Ret (clauses ++ ["WHERE " +:+ w])
            | None => Ret clauses
            end;
  binds ← match query !! "binds" with
          | Some v => b ← assert_slice v; Ret (binds ++ b)
          | None => Ret binds
          end;
  let sql := String.concat " " clauses in
  Ret (sql, binds).

Definition buildQuery (m : MySQL) (query : X) : result (string * list value) :=
  let table := Table m in
  let prefix := getPrefix m in
  let clauses : list string := [] in
  let binds : list value := [] in
  clauses ← match query !! "select" with
            | Some v => s ← assert_string v; Ret (clauses ++ ["SELECT " +:+ s])
            | None => Ret (clauses ++ ["SELECT *"])
            end;
  table ← match query !! "table" with
          | Some v => assert_string v
          | None => Ret table
          end;
  clauses ← match query !! "join" with
            | Some v =>
                let clauses := clauses ++ ["FROM " +:+ prefix +:+ table +:+ " AS a"] in
                joins ← assert_strings v;
                Ret (foldl (fun clauses join => clauses ++ [join]) clauses joins)
            | None => Ret (clauses ++ ["FROM " +:+ prefix +:+ table])
            end;
  clauses ← match query !! "where" with
            | Some v => s ← assert_string v; Ret (clauses ++ ["WHERE " +:+ s])
            | None => Ret clauses
            end;
  clauses ← match query !! "group" with
            | Some v => s ← assert_string v; Ret (clauses ++ ["GROUP BY " +:+ s])
            | None => Ret clauses
            end;
  clauses ← match query !! "order" with
            | Some v => s ← assert_string v; Ret (clauses ++ ["ORDER BY " +:+ s])
            | None => Ret clauses
            end;
  clauses ← match query !! "offset" with
            | Some v => n ← assert_int v; Ret (clauses ++ ["OFFSET " +:+ pretty n])
            | None => Ret clauses
            end;
  clauses ← match query !! "limit" with
            | Some v => n ← assert_int v; Ret (clauses ++ ["LIMIT " +:+ pretty n])
            | None => Ret clauses
            end;
  binds ← match query !! "binds" with
          | Some v => b ← assert_slice v; Ret (binds ++ b)
          | None => Ret binds
          end;
  let sql := String.concat " " clauses in
  Ret (sql, binds).

Definition buildDelete (m : MySQL) (query : X) : result (string * list value) :=
  let table := Table m in
  let prefix := getPrefix m in
  let clauses : list string := [] in
  let binds : list value := [] in
  table ← match query !! "table" with
          | Some v => assert_string v
          | None => Ret table
          end;
  let clauses := clauses ++ ["DELETE FROM " +:+ prefix +:+ table] in
  clauses ← match query !! "where" with
            | Some v => s ← assert_string v; Ret (clauses ++ ["WHERE " +:+ s])
            | None => Ret clauses
            end;
  binds ← match query !! "binds" with
          | Some v => b ← assert_slice v; Ret (binds ++ b)
          | None => Ret binds
          end;
  let sql := String.concat " " clauses in
  Ret (sql, binds).

End Builders.

(** ** The collaborators and the trace of calls *)

(** A Go [error]; [Error] is its message. *)
Record error : Type := mkError { Error : string }.

(** [sql.Result]: both accessors return a number and an error. *)
Record sql_Result : Type := mkResult {
  LastInsertId : Z * option error;
  RowsAffected : Z * option error
}.

(** Every call that leaves the package, with the reply it got.  [EvGetInt]
    is [db.Get] on a [*int] destination: its reply says which integer the
    driver stored there, if any. *)
Inductive event : Type :=
| EvPrintln (a : list value)
| EvLogError (a : list string)
| EvLogErrorf (format : string) (a : list string)
| EvIn (query : string) (args : list value)
| EvExec (query : string) (args : list value) (reply : error + sql_Result)
| EvGetInt (query : string) (args : list value) (reply : option Z * option error)
| EvGet (query : string) (args : list value) (reply : option error)
| EvSelect (query : string) (args : list value) (reply : option error)
| EvBegin (reply : option error)
| EvTxExec (query : string) (args : list value) (reply : option error)
| EvRollback (reply : option error)
| EvCommit (reply : option error).

(** What the package is linked against.  The database answers as a function
    of the handle name and of everything that happened before; [sqlx.In] is
    the placeholder expander; [dbmap] holds the names [InitDB] registered. *)
Record world : Type := World {
  GetEnvString : string -> string -> string -> string;
  dbmap : gset string;
  sqlx_In : string -> list value -> string * list value * option error;
  db_Exec : string -> list event -> string -> list value -> error + sql_Result;
  db_Get_int : string -> list event -> string -> list value -> option Z * option error;
  db_Get : string -> list event -> string -> list value -> option error;
  db_Select : string -> list event -> string -> list value -> option error;
  db_Begin : string -> list event -> option error;
  tx_Exec : string -> list event -> string -> list value -> option error;
  tx_Rollback : string -> list event -> option error;
  tx_Commit : string -> list event -> option error
}.

(** The objects a call can reach: the trace so far, the map the caller
    passed as [query] ([None] is the nil map; [Count] and [FindOne] write to
    it, the other methods only read theirs and take it as an argument) and
    the integer the [data *int] of [Count] points to. *)
Record store : Type := Store {
  trace : list event;
  query_map : option X;
  count_dest : Z
}.

Definition M (A : Type) : Type := store -> result A * store.

#[global] Instance M_ret : MRet M := fun A a s => (Ret a, s).
#[global] Instance M_bind : MBind M := fun A B f c s =>
  match c s with
  | (Ret a, s') => f a s'
  | (Panic p, s') => (Panic p, s')
  end.

Definition lift {A} (r : result A) : M A := fun s => (r, s).

Definition emit (e : event) : M unit := fun s =>
  (Ret tt, {| trace := trace s ++ [e]; query_map := query_map s; count_dest := count_dest s |}).

Definition history : M (list event) := fun s => (Ret (trace s), s).

(** Reading a nil map behaves as reading an empty one. *)
Definition read_query : M X := fun s => (Ret (default ∅ (query_map s)), s).

(** [query[k] = v] *)
Definition assign_query (k : string) (v : value) : M unit := fun s =>
  match query_map s with
  | Some q =>
      (Ret tt, {| trace := trace s; query_map := Some (<[k:=v]> q); count_dest := count_dest s |})
  | None => (Panic PanicNilMap, s)
  end.

(** [*data = n] *)
Definition assign_count (n : Z) : M unit := fun s =>
  (Ret tt, {| trace := trace s; query_map := query_map s; count_dest := n |}).

Section Executor.

Variable w : world.

Definition getDB (m : MySQL) : M string :=
  let dbname := DB m in
  let dbname := if decide (dbname = "") then "db" else dbname in
  if decide (dbname ∈ dbmap w) then mret dbname
  else
    emit (EvLogErrorf "[MySQL] Database Error: %s is not initialized" [DB m]);;
    lift (Panic (PanicMsg ("mysql error: database " +:+ DB m +:+ " is not initialized"))).

(** [_sql, args, _ := sqlx.In(sql, binds...)] *)
Definition call_In (sql : string) (binds : list value) : M (string * list value) :=
  emit (EvIn sql binds);;
  let '(_sql, args, _) := sqlx_In w sql binds in
  mret (_sql, args).

Definition call_Exec (db : string) (q : string) (a : list value) : M (error + sql_Result) :=
  h ← history; let r := db_Exec w db h q a in emit (EvExec q a r);; mret r.

Definition call_Get_int (db : string) (q : string) (a : list value)
  : M (option Z * option error) :=
  h ← history; let r := db_Get_int w db h q a in emit (EvGetInt q a r);; mret r.

Definition call_Get (db : string) (q : string) (a : list value) : M (option error) :=
  h ← history; let r := db_Get w db h q a in emit (EvGet q a r);; mret r.

Definition call_Select (db : string) (q : string) (a : list value) : M (option error) :=
  h ← history; let r := db_Select w db h q a in emit (EvSelect q a r);; mret r.

Definition call_Begin (db : string) : M (option error) :=
  h ← history; let r := db_Begin w db h in emit (EvBegin r);; mret r.

Definition call_TxExec (db : string) (q : string) (a : list value) : M (option error) :=
  h ← history; let r := tx_Exec w db h q a in emit (EvTxExec q a r);; mret r.

Definition call_Rollback (db : string) : M unit :=
  h ← history; emit (EvRollback (tx_Rollback w db h)).

Definition call_Commit (db : string) : M unit :=
  h ← history; emit (EvCommit (tx_Commit w db h)).

(** [buildUpdate] together with its two [fmt.Println] lines. *)
Definition call_buildUpdate (order : map_order) (m : MySQL) (query data : X)
  : M (string * list value) :=
  '(sql, binds) ← lift (buildUpdate (GetEnvString w) order m query data);
  emit (EvPrintln [VString "[sql]"; VString sql]);;
  emit (EvPrintln [VString "[binds]"; VSlice binds]);;
  mret (sql, binds).

(** The error branch shared by the three find methods. *)
Definition report_read (tag : string) (err : option error) : M (option error) :=
  match err with
  | Some e =>
      let msg := Error e in
      (if decide (msg ≠ "sql: no rows in result set")
       then emit (EvLogError [tag; msg]) else mret tt);;
      mret (Some e)
  | None => mret None
  end.

Section SingleStatement.

Variable order : map_order.

Definition Insert (m : MySQL) (data : X) : M (Z * option error) :=
  db ← getDB m;
  '(sql, binds) ← lift (buildInsert (GetEnvString w) order m data []);
  r ← call_Exec db sql binds;
  match r with
  | inl err => emit (EvLogError ["[MySQL] Insert Error: "; Error err]);; mret (0%Z, Some err)
  | inr result => let '(id, _) := LastInsertId result in mret (id, None)
  end.

Definition BatchInsert (m : MySQL) (columns : list string) (data : list X)
  : M (Z * option error) :=
  db ← getDB m;
  '(sql, binds) ← lift (buildBatchInsert (GetEnvString w) m columns data []);
  r ← call_Exec db sql binds;
  match r with
  | inl err =>
      emit (EvLogError ["[MySQL] BatchInsert Error: "; Error err]);; mret (0%Z, Some err)
  | inr result => let '(rows, _) := RowsAffected result in mret (rows, None)
  end.

Definition Update (m : MySQL) (query data : X) : M (Z * option error) :=
  db ← getDB m;
  '(sql, binds) ← call_buildUpdate order m query data;
  '(_sql, args) ← call_In sql binds;
  r ← call_Exec db _sql args;
  match r with
  | inl err => emit (EvLogError ["[MySQL] Update Error: "; Error err]);; mret (0%Z, Some err)
  | inr result => let '(rows, _) := RowsAffected result in mret (rows, None)
  end.

(** [query] and [data] are the caller's objects in the store. *)
Definition Count (m : MySQL) (columns : list string) : M (option error) :=
  db ← getDB m;
  match columns with
  | c :: _ => assign_query "select" (VString ("COUNT(" +:+ c +:+ ")"))
  | [] => assign_query "select" (VString "COUNT(*)")
  end;;
  let count := 0%Z in
  query ← read_query;
  '(sql, binds) ← lift (buildQuery (GetEnvString w) m query);
  '(_sql, args) ← call_In sql binds;
  '(scanned, err) ← call_Get_int db _sql args;
  let count := default count scanned in
  assign_count count;;
  mret err.

Definition FindOne (m : MySQL) : M (option error) :=
  db ← getDB m;
  assign_query "limit" (VInt 1);;
  query ← read_query;
  '(sql, binds) ← lift (buildQuery (GetEnvString w) m query);
  '(_sql, args) ← call_In sql binds;
  err ← call_Get db _sql args;
  report_read "[MySQL] FindOne Error: " err.

Definition Find (m : MySQL) (query : X) : M (option error) :=
  db ← getDB m;
  '(sql, binds) ← lift (buildQuery (GetEnvString w) m query);
  '(_sql, args) ← call_In sql binds;
  err ← call_Select db _sql args;
  report_read "[MySQL] Find Error: " err.

Definition FindAll (m : MySQL) (columns : list string) : M (option error) :=
  db ← getDB m;
  let query : X := ∅ in
  let query := if decide (0 < length columns)
               then <["select" := VString (String.concat "," columns)]> query
               else query in
  '(sql, binds) ← lift (buildQuery (GetEnvString w) m query);
  err ← call_Select db sql binds;
  report_read "[MySQL] FindAll Error: " err.

Definition Delete (m : MySQL) (query : X) : M (Z * option error) :=
  db ← getDB m;
  '(sql, binds) ← lift (buildDelete (GetEnvString w) m query);
  '(_sql, args) ← call_In sql binds;
  r ← call_Exec db _sql args;
  match r with
  | inl err => emit (EvLogError ["[MySQL] Delete Error: "; Error err]);; mret (0%Z, Some err)
  | inr result => let '(rows, _) := RowsAffected result in mret (rows, None)
  end.

End SingleStatement.

(** ** The transaction coordinator *)

(** The body of [switch key] for one entry; the result is the value of
    [err] when the switch is left. *)
Definition tx_arm (order : map_order) (m : MySQL) (db : string) (key : string) (opt : X)
  : M (option error) :=
  if decide (key = "insert") then
    let table : list string := [] in
    let data : X := ∅ in
    table ← match opt !! "table" with
            | Some v => s ← lift (assert_string v); mret (table ++ [s])
            | None => mret table
            end;
    data ← match opt !! "data" with
           | Some v => lift (assert_X v)
           | None => mret data
           end;
    '(sql, binds) ← lift (buildInsert (GetEnvString w) order m data table);
    call_TxExec db sql binds
  else if decide (key = "batchInsert") then
    let table : list string := [] in
    let columns : list string := [] in
    let data : list X := [] in
    table ← match opt !! "table" with
            | Some v => s ← lift (assert_string v); mret (table ++ [s])
            | None => mret table
            end;
    columns ← match opt !! "columns" with
              | Some v => lift (assert_strings v)
              | None => mret columns
              end;
    data ← match opt !! "data" with
           | Some v => lift (assert_Xs v)
           | None => mret data
           end;
    '(sql, binds) ← lift (buildBatchInsert (GetEnvString w) m columns data table);
    call_TxExec db sql binds
  else if decide (key = "update") then
    emit (EvPrintln [VString "执行更新"]);;
    let query : X := ∅ in
    let data : X := ∅ in
    query ← match opt !! "query" with
            | Some v => lift (assert_X v)
            | None => mret query
            end;
    data ← match opt !! "data" with
           | Some v => lift (assert_X v)
           | None => mret data
           end;
    '(sql, binds) ← call_buildUpdate order m query data;
    '(_sql, args) ← call_In sql binds;
    call_TxExec db _sql args
  else if decide (key = "delete") then
    '(sql, binds) ← lift (buildDelete (GetEnvString w) m opt);
    '(_sql, args) ← call_In sql binds;
    call_TxExec db _sql args
  else mret None.

(** The iteration of a Go map may take another order each time it is
    run: [orders 0] is the order of the loop over [operations], and
    [orders (S i)] the order the builder called for its [i]-th entry
    uses. *)
Variable orders : nat -> map_order.

(** [for key, value := range operations { ... if err != nil { break } }];
    the result is [err] after the loop. *)
Fixpoint tx_loop (m : MySQL) (db : string) (i : nat) (entries : list (string * value))
  : M (option error) :=
  match entries with
  | [] => mret None
  | (key, value) :: rest =>
      opt ← lift (assert_X value);
      err ← tx_arm (orders (S i)) m db key opt;
      match err with
      | Some e => mret (Some e)
      | None => tx_loop m db (S i) rest
      end
  end.

Definition DoTransactions (m : MySQL) (operations : X) : M (option error) :=
  db ← getDB m;
  err ← call_Begin db;
  match err with
  | Some e =>
      emit (EvLogError ["[MySQL] DoTransactions Error: "; Error e]);;
      mret (Some e)
  | None =>
      err ← tx_loop m db 0 (range (orders 0) operations);
      match err with
      | Some e =>
          call_Rollback db;;
          emit (EvLogError ["[MySQL] DoTransactions Error: "; Error e]);;
          mret (Some e)
      | None =>
          call_Commit db;;
          mret None
      end
  end.

End Executor.

(** The store of a call that starts with an empty trace. *)
Definition init (query : option X) (data : Z) : store :=
  {| trace := []; query_map := query; count_dest := data |}.

(** ** InitDB and the registry of handles *)

(** The calls [InitDB] makes, with their replies; [conn] is the type of the
    handles [sqlx.Open] returns. *)
Inductive init_event (conn : Type) : Type :=
| IvOpen (driver dsn : string) (reply : error + conn)
| IvSetMaxOpenConns (db : conn) (n : Z)
| IvSetMaxIdleConns (db : conn) (n : Z)
| IvPing (db : conn) (reply : option error)
| IvClose (db : conn)
| IvLogError (a : list string).
Arguments IvOpen {conn} driver dsn reply.
Arguments IvSetMaxOpenConns {conn} db n.
Arguments IvSetMaxIdleConns {conn} db n.
Arguments IvPing {conn} db reply.
Arguments IvClose {conn} db.
Arguments IvLogError {conn} a.

(** The package variable [dbmap] and the calls made so far. *)
Record init_state (conn : Type) : Type := InitState {
  registry : gmap string conn;
  init_trace : list (init_event conn)
}.
Arguments InitState {conn} registry init_trace.
Arguments registry {conn} i.
Arguments init_trace {conn} i.

Section Init.

Variable conn : Type.
(** [GetEnvString] and [GetEnvInt] of the configuration package, [sqlx.Open]
    and [db.Ping]; the last two answer as a function of what happened
    before. *)
Variable EnvString : string -> string -> string -> string.
Variable GetEnvInt : string -> string -> Z -> Z.
Variable sqlx_Open : list (init_event conn) -> string -> string -> error + conn.
Variable db_Ping : list (init_event conn) -> conn -> option error.

(** The data source name [InitDB] formats for the configuration section [v]. *)
Definition init_dsn (v : string) : string :=
  let host := EnvString v "host" "localhost" in
  let port := GetEnvInt v "port" 3306 in
  let username := EnvString v "username" "root" in
  let password := EnvString v "password" "" in
  let database := EnvString v "database" "test" in
  let charset := EnvString v "charset" "utf8mb4" in
  let collection := EnvString v "collection" "utf8_general_ci" in
  username +:+ ":" +:+ password +:+ "@tcp(" +:+ host +:+ ":" +:+ pretty port +:+ ")/"
  +:+ database +:+ "?charset=" +:+ charset +:+ "&collation=" +:+ collection
  +:+ "&parseTime=True&loc=Local".

(** [for _, v := range dbnames { ... }] *)
Fixpoint InitDB_loop (dbnames : list string) (st : init_state conn)
  : result unit * init_state conn :=
  match dbnames with
  | [] => (Ret tt, st)
  | v :: rest =>
      let dsn := init_dsn v in
      match sqlx_Open (init_trace st) "mysql" dsn with
      | inl err =>
          (Panic (PanicMsg (Error err)),
           {| registry := registry st;
              init_trace := init_trace st
                            ++ [IvOpen "mysql" dsn (inl err);
                                IvLogError ["[MySQL] Connect Error: "; Error err]] |})
      | inr db =>
          let tr := init_trace st
                    ++ [IvOpen "mysql" dsn (inr db);
                        IvSetMaxOpenConns db (GetEnvInt "db" "maxOpenConns" 20);
                        IvSetMaxIdleConns db (GetEnvInt "db" "maxIdleConns" 10)] in
          let err := db_Ping tr db in
          let tr := tr ++ [IvPing db err] in
          let tr := match err with Some _ => tr ++ [IvClose db] | None => tr end in
          InitDB_loop rest {| registry := <[v := db]> (registry st); init_trace := tr |}
      end
  end.

Definition InitDB (dbnames : list string) (st : init_state conn)
  : result unit * init_state conn :=
  let dbnames := if decide (length dbnames = 0) then dbnames ++ ["db"] else dbnames in
  InitDB_loop dbnames {| registry := ∅; init_trace := init_trace st |}.

End Init.

(** ** ReturnJson *)

(** The status and the object [ReturnJson] passes to [c.JSON]. *)
Definition ReturnJson (code : Z) (msg : string) (data : list value) : Z * X :=
  let obj : X := <["msg" := VString msg]> (<["code" := VInt code]> ∅) in
  let obj := match data with
             | d :: _ => <["data" := d]> obj
             | [] => obj
             end in
  (200%Z, obj).

(** * Definitions used to state the properties *)

(** ** Rows of a batch insert *)

(** The binds one row contributes: for every column of [columns], in order,
    what the row stores under it, the nil interface when it stores nothing. *)
Definition row_binds (columns : list string) (row : X) : list value :=
  map (fun column => default VNil (row !! column)) columns.

(** ** Condition maps with the documented dynamic types *)

(** What [buildQuery] asserts about the keys it reads. *)
Definition query_typed (q : X) : bool :=
  key_typed is_string q "select" && key_typed is_string q "table"
  && key_typed is_strings q "join" && key_typed is_string q "where"
  && key_typed is_string q "group" && key_typed is_string q "order"
  && key_typed is_int q "offset" && key_typed is_int q "limit"
  && key_typed is_slice q "binds".

(** What [buildDelete] asserts, and [buildUpdate] about its condition map. *)
Definition cond_typed (q : X) : bool :=
  key_typed is_string q "table" && key_typed is_string q "where"
  && key_typed is_slice q "binds".

(** No entry of the data map is a nil [*expr]. *)
Definition nil_free (D : X) : bool :=
  forallb (fun kv : string * value => negb (is_nil_expr kv.2)) (map_to_list D).

Definition get_string (q : X) (k : string) : option string :=
  match q !! k with Some (VString s) => Some s | _ => None end.
Definition get_int (q : X) (k : string) : option Z :=
  match q !! k with Some (VInt n) => Some n | _ => None end.
Definition get_strings (q : X) (k : string) : option (list string) :=
  match q !! k with Some (VStrings l) => Some l | _ => None end.
Definition get_slice (q : X) (k : string) : option (list value) :=
  match q !! k with Some (VSlice l) => Some l | _ => None end.

(** A clause that is there only when its key is. *)
Definition clause (keyword : string) (o : option string) : list string :=
  match o with Some s => [keyword +:+ s] | None => [] end.

(** ** The statements as the specification words them *)

(** The SET fragment of one data entry: [col = <raw fragment>] for an
    Expression Literal, [col = ?] otherwise. *)
Definition spec_set_clause (kv : string * value) : string :=
  match kv.2 with
  | VExprPtr (Some e) => kv.1 +:+ " = " +:+ expr_text e
  | _ => kv.1 +:+ " = ?"
  end.

(** The binds of one data entry: the literal's own binds, in its order, for
    an Expression Literal, the value itself otherwise. *)
Definition spec_set_binds (kv : string * value) : list value :=
  match kv.2 with
  | VExprPtr (Some e) => expr_args e
  | v => [v]
  end.

(** [FROM <prefix><table>], aliased and followed by the join strings when
    the key [join] is present. *)
Definition spec_from (cfg : string -> string -> string -> string) (m : MySQL) (q : X)
  : list string :=
  let table := default (Table m) (get_string q "table") in
  match q !! "join" with
  | Some _ =>
      ["FROM " +:+ getPrefix cfg m +:+ table +:+ " AS a"] ++ default [] (get_strings q "join")
  | None => ["FROM " +:+ getPrefix cfg m +:+ table]
  end.

(** SELECT, FROM and joins, WHERE, GROUP BY, ORDER BY, OFFSET, LIMIT. *)
Definition spec_query_clauses (cfg : string -> string -> string -> string) (m : MySQL) (q : X)
  : list string :=
  ["SELECT " +:+ default "*" (get_string q "select")]
  ++ spec_from cfg m q
  ++ clause "WHERE " (get_string q "where")
  ++ clause "GROUP BY " (get_string q "group")
  ++ clause "ORDER BY " (get_string q "order")
  ++ clause "OFFSET " (pretty <$> get_int q "offset")
  ++ clause "LIMIT " (pretty <$> get_int q "limit").

Definition spec_update_clauses (cfg : string -> string -> string -> string) (m : MySQL)
    (q : X) (entries : list (string * value)) : list string :=
  ["UPDATE " +:+ getPrefix cfg m +:+ default (Table m) (get_string q "table");
   "SET " +:+ String.concat "," (map spec_set_clause entries)]
  ++ clause "WHERE " (get_string q "where").

Definition spec_delete_clauses (cfg : string -> string -> string -> string) (m : MySQL) (q : X)
  : list string :=
  ["DELETE FROM " +:+ getPrefix cfg m +:+ default (Table m) (get_string q "table")]
  ++ clause "WHERE " (get_string q "where").

(** ** Events and replies of the executor methods *)

(** The name under which [getDB] looks the handle up. *)
Definition handle (m : MySQL) : string :=
  if decide (DB m = "") then "db" else DB m.

(** The [select] that [Count] stores. *)
Definition count_select (columns : list string) : value :=
  match columns with
  | c :: _ => VString ("COUNT(" +:+ c +:+ ")")
  | [] => VString "COUNT(*)"
  end.

(** What the find methods log for the reply [err]. *)
Definition read_log (tag : string) (err : option error) : list event :=
  match err with
  | Some e =>
      if decide (Error e ≠ "sql: no rows in result set") then [EvLogError [tag; Error e]] else []
  | None => []
  end.

(** What the write methods log for the reply [r], and what they return. *)
Definition write_log (tag : string) (r : error + sql_Result) : list event :=
  match r with inl err => [EvLogError [tag; Error err]] | inr _ => [] end.

Definition rows_or_error (r : error + sql_Result) : Z * option error :=
  match r with inl err => (0%Z, Some err) | inr res => ((RowsAffected res).1, None) end.

(** The two lines [buildUpdate] prints. *)
Definition update_prints (sql : string) (binds : list value) : list event :=
  [EvPrintln [VString "[sql]"; VString sql]; EvPrintln [VString "[binds]"; VSlice binds]].

(** The query [FindAll] builds from its column arguments. *)
Definition findall_query (columns : list string) : X :=
  if decide (0 < length columns)
  then <["select" := VString (String.concat "," columns)]> ∅
  else ∅.

(** A world for the examples: no prefix, the handle [db], an expander that
    returns its arguments, a table [user] that does not exist for counting,
    and a transaction in which the delete on [stock] fails. *)
Definition sample_world : world := {|
  GetEnvString := fun _ _ d => d;
  dbmap := {["db"]};
  sqlx_In := fun q a => (q, a, None);
  db_Exec := fun _ _ _ _ => inr (mkResult (5%Z, None) (1%Z, None));
  db_Get_int := fun _ _ _ _ => (None, Some (mkError "Error 1146: Table 'user' doesn't exist"));
  db_Get := fun _ _ _ _ => Some (mkError "sql: no rows in result set");
  db_Select := fun _ _ _ _ => None;
  db_Begin := fun _ _ => None;
  tx_Exec := fun _ _ q _ =>
    if decide (q = "DELETE FROM stock WHERE id = ?")
    then Some (mkError "Error 1146: Table 'stock' doesn't exist") else None;
  tx_Rollback := fun _ _ => None;
  tx_Commit := fun _ _ => None
|}.

(** ** Batches and what the coordinator leaves in the trace *)

(** The store [s] after the events [evs]. *)
Definition extend (s : store) (evs : list event) : store :=
  {| trace := trace s ++ evs; query_map := query_map s; count_dest := count_dest s |}.

(** What the arms read from an entry, when it has the documented type. *)
Definition get_X (opt : X) (k : string) : X :=
  match opt !! k with Some (VMap x) => x | _ => ∅ end.
Definition get_Xs (opt : X) (k : string) : list X :=
  match opt !! k with Some (VMaps l) => l | _ => [] end.
Definition get_table (opt : X) : list string :=
  match opt !! "table" with Some (VString t) => [t] | _ => [] end.

Definition known_tag (key : string) : bool :=
  bool_decide (key = "insert") || bool_decide (key = "batchInsert")
  || bool_decide (key = "update") || bool_decide (key = "delete").




(** Events that occur between [Begin] and [Commit] or [Rollback]. *)
Definition in_transaction (e : event) : bool :=
  match e with EvPrintln _ | EvIn _ _ | EvTxExec _ _ _ => true | _ => false end.


Definition is_TxExec (e : event) : bool :=
  match e with EvTxExec _ _ _ => true | _ => false end.





(** An insert into [stock] and a delete on it that fails. *)
Definition sample_batch : X :=
  <["insert" := VMap (<["data" := VMap (<["id" := VInt 7]> (<["qty" := VInt 3]> ∅))]> ∅)]>
    (<["delete" := VMap (<["where" := VString "id = ?"]> (<["binds" := VSlice [VInt 6]]> ∅))]> ∅).

(** Every entry has a tag outside the four and an [X] as its payload. *)
Definition only_unknown (operations : X) : bool :=
  forallb (fun kv : string * value => negb (known_tag kv.1) && is_X kv.2)
          (map_to_list operations).

(** ** Calls to the expander and to the driver *)

(** The calls to the expander and the statements handed to the driver. *)
Definition is_call (e : event) : bool :=
  match e with
  | EvIn _ _ | EvExec _ _ _ | EvGetInt _ _ _ | EvGet _ _ _ | EvSelect _ _ _
  | EvTxExec _ _ _ => true
  | _ => false
  end.

(** The statement an event hands to the driver. *)
Definition statement_of (e : event) : option (string * list value) :=
  match e with
  | EvExec q a _ | EvGetInt q a _ | EvGet q a _ | EvSelect q a _ | EvTxExec q a _ =>
      Some (q, a)
  | _ => None
  end.

(** The events between the store [s] and a later store [s']. *)
Definition events_since (s s' : store) : list event :=
  drop (length (trace s)) (trace s').

(** Among the events [evs] the calls are: the expander on [(sql, binds)],
    then the driver on what the expander returned. *)
Definition through_expander (w : world) (sql : string) (binds : list value)
    (evs : list event) : Prop :=
  exists e, filter is_call evs = [EvIn sql binds; e]
            /\ statement_of e = Some (sqlx_In w sql binds).1.

(** Among the events [evs] the only call is the driver on [(sql, binds)]. *)
Definition straight_to_driver (sql : string) (binds : list value) (evs : list event)
  : Prop :=
  exists e, filter is_call evs = [e] /\ statement_of e = Some (sql, binds).

(** ** Definitions for the further properties *)

(** The statement of a builder's result, when it returned. *)
Definition sql_of (r : result (string * list value)) : option string :=
  match r with Ret (sql, _) => Some sql | Panic _ => None end.

(** No value of the data map is an expression pointer. *)
Definition expr_free (D : X) : bool :=
  forallb (fun kv : string * value => match kv.2 with VExprPtr _ => false | _ => true end)
          (map_to_list D).

Definition is_LogError (e : event) : bool :=
  match e with EvLogError _ => true | _ => false end.

Definition is_Commit (e : event) : bool :=
  match e with EvCommit _ => true | _ => false end.

Definition is_Rollback (e : event) : bool :=
  match e with EvRollback _ => true | _ => false end.

Definition is_Begin (e : event) : bool :=
  match e with EvBegin _ => true | _ => false end.

(** What [getDB] logs and panics with for a name that is not registered. *)
Definition unregistered_log (m : MySQL) : event :=
  EvLogErrorf "[MySQL] Database Error: %s is not initialized" [DB m].
Definition unregistered_panic (m : MySQL) : panic :=
  PanicMsg ("mysql error: database " +:+ DB m +:+ " is not initialized").

(** What [Insert] returns for the reply [r] of the driver. *)
Definition id_or_error (r : error + sql_Result) : Z * option error :=
  match r with inl err => (0%Z, Some err) | inr res => ((LastInsertId res).1, None) end.

(** The names [InitDB] goes through. *)
Definition init_names (dbnames : list string) : list string :=
  match dbnames with [] => ["db"] | _ => dbnames end.

(** The calls of one round of [InitDB] that opened [db] and got [ping] from
    [db.Ping]. *)
Definition init_block {conn} (GetEnvInt : string -> string -> Z -> Z) (dsn : string)
    (db : conn) (ping : option error) : list (init_event conn) :=
  [IvOpen "mysql" dsn (inr db);
   IvSetMaxOpenConns db (GetEnvInt "db" "maxOpenConns" 20%Z);
   IvSetMaxIdleConns db (GetEnvInt "db" "maxIdleConns" 10%Z);
   IvPing db ping]
  ++ match ping with Some _ => [IvClose db] | None => [] end.

(** The rounds [InitDB] completed: the name, the handle opened and the reply
    of [db.Ping]. *)
Definition init_rounds (conn : Type) : Type := list (string * conn * option error).

Definition rounds_events {conn} (EnvString : string -> string -> string -> string)
    (GetEnvInt : string -> string -> Z -> Z) (rounds : init_rounds conn)
  : list (init_event conn) :=
  concat (map (fun r : string * conn * option error =>
                 init_block GetEnvInt (init_dsn EnvString GetEnvInt r.1.1) r.1.2 r.2) rounds).

(** The registry after the rounds: a later round replaces an earlier one of
    the same name. *)
Definition rounds_registry {conn} (rounds : init_rounds conn) : gmap string conn :=
  foldl (fun reg (r : string * conn * option error) => <[r.1.1 := r.1.2]> reg) ∅ rounds.

(** A world whose registry is the one [InitDB] left. *)
Definition with_registry {conn} (w : world) (reg : gmap string conn) : world :=
  {| GetEnvString := GetEnvString w; dbmap := dom reg; sqlx_In := sqlx_In w;
     db_Exec := db_Exec w; db_Get_int := db_Get_int w; db_Get := db_Get w;
     db_Select := db_Select w; db_Begin := db_Begin w; tx_Exec := tx_Exec w;
     tx_Rollback := tx_Rollback w; tx_Commit := tx_Commit w |}.

(** The reply a read event carries. *)
Definition read_reply (e : event) : option (option error) :=
  match e with EvGet _ _ r | EvSelect _ _ r => Some r | _ => None end.

(** The reply a write event of the driver carries. *)
Definition write_reply (e : event) : option (error + sql_Result) :=
  match e with EvExec _ _ r => Some r | _ => None end.

(** A write method run from [s]: the driver executed one statement and
    replied [r], the method returned what [outcome] makes of [r], logged what
    [write_log] says for [r], and left the caller's map and integer alone. *)
Definition write_report (tag : string) (outcome : error + sql_Result -> Z * option error)
    (s : store) (run : result (Z * option error) * store) : Prop :=
  exists r,
    run.1 = Ret (outcome r)
    /\ omap write_reply (events_since s run.2) = [r]
    /\ filter is_LogError (events_since s run.2) = write_log tag r
    /\ query_map run.2 = query_map s /\ count_dest run.2 = count_dest s.

(** A find method run from [s]: the driver ran one query and replied [err],
    the method returned [err] and logged what [read_log] says for it. *)
Definition read_report (tag : string) (s : store) (run : result (option error) * store)
  : Prop :=
  exists err,
    run.1 = Ret err
    /\ omap read_reply (events_since s run.2) = [err]
    /\ filter is_LogError (events_since s run.2) = read_log tag err.

(** The world [w] with an expander that reports no error. *)
Definition drop_In_error (w : world) : world :=
  {| GetEnvString := GetEnvString w; dbmap := dbmap w;
     sqlx_In := fun q a => ((sqlx_In w q a).1, None);
     db_Exec := db_Exec w; db_Get_int := db_Get_int w; db_Get := db_Get w;
     db_Select := db_Select w; db_Begin := db_Begin w; tx_Exec := tx_Exec w;
     tx_Rollback := tx_Rollback w; tx_Commit := tx_Commit w |}.

(** * Properties of the statement builders *)

(** ** The builders on small inputs *)

Example buildDelete_orders :
  buildDelete (fun _ _ d => d) (mkMySQL "" "user")
    (<["table" := VString "orders"]> (<["where" := VString "id = ?"]>
      (<["binds" := VSlice [VInt 42]]> ∅)))
  = Ret ("DELETE FROM orders WHERE id = ?", [VInt 42]).
Proof. reflexivity. Qed.

Example buildInsert_prefixed :
  buildInsert (fun db key _ => if decide (db = "db") then "yii_" else "") stored_order
    (mkMySQL "" "user") (<["name" := VString "ann"]> (<["age" := VInt 30]> ∅)) []
  = Ret ("INSERT INTO yii_user (age,name) VALUES (?,?)", [VInt 30; VString "ann"]).
Proof. vm_compute. reflexivity. Qed.

Example buildBatchInsert_missing_key :
  buildBatchInsert (fun _ _ d => d) (mkMySQL "" "user") ["name"; "age"]
    [<["name" := VString "ann"]> (<["age" := VInt 30]> ∅);
     <["name" := VString "bob"]> (<["city" := VString "x"]> ∅)] ["member"]
  = Ret ("INSERT INTO member (name,age) VALUES (?,?),(?,?)",
         [VString "ann"; VInt 30; VString "bob"; VNil]).
Proof. vm_compute. reflexivity. Qed.

Example buildUpdate_nil_expression :
  buildUpdate (fun _ _ d => d) stored_order (mkMySQL "" "user") ∅
    (<["age" := VExprPtr None]> ∅)
  = Panic PanicNilDereference.
Proof. vm_compute. reflexivity. Qed.

Example buildQuery_negative_offset :
  buildQuery (fun _ _ d => d) (mkMySQL "" "user")
    (<["offset" := VInt (-5)]> (<["join" := VStrings []]> ∅))
  = Ret ("SELECT * FROM user AS a OFFSET -5", []).
Proof. vm_compute. reflexivity. Qed.

(** ** Loops as closed forms *)

Lemma range_length (order : map_order) (m : X) : length (range order m) = size m.
Proof. rewrite (range_perm order m). apply length_map_to_list. Qed.

Lemma insert_loop (l : list (string * value)) (cs ps : list string) (bs : list value) :
  foldl (fun '(columns, placeholders, binds) '(k, v) =>
           (columns ++ [k], placeholders ++ ["?"], binds ++ [v])) (cs, ps, bs) l
  = (cs ++ l.*1, ps ++ replicate (length l) "?", bs ++ l.*2).
Proof.
  revert cs ps bs. induction l as [|[k v] l IH]; intros cs ps bs; simpl.
  - by rewrite !app_nil_r.
  - rewrite IH. by rewrite <- !app_assoc.
Qed.

Lemma batch_inner_loop (row : X) (columns : list string) (bs : list value) (bv : list string) :
  foldl (fun '(binds, bindvars) column =>
           (binds ++ [default VNil (row !! column)], bindvars ++ ["?"])) (bs, bv) columns
  = (bs ++ row_binds columns row, bv ++ replicate (length columns) "?").
Proof.
  revert bs bv. induction columns as [|c columns IH]; intros bs bv; simpl.
  - by rewrite !app_nil_r.
  - rewrite IH. by rewrite <- !app_assoc.
Qed.

Lemma batch_outer_loop (columns : list string) (data : list X)
    (ps : list string) (bs : list value) :
  foldl (fun '(placeholders, binds) (v : X) =>
           let '(binds, bindvars) :=
             foldl (fun '(binds, bindvars) column =>
                      (binds ++ [default VNil (v !! column)], bindvars ++ ["?"]))
                   (binds, []) columns in
           (placeholders ++ ["(" +:+ String.concat "," bindvars +:+ ")"], binds))
        (ps, bs) data
  = (ps ++ replicate (length data)
             ("(" +:+ String.concat "," (replicate (length columns) "?") +:+ ")"),
     bs ++ concat (map (row_binds columns) data)).
Proof.
  revert ps bs. induction data as [|row data IH]; intros ps bs; simpl.
  - by rewrite !app_nil_r.
  - rewrite batch_inner_loop. simpl. rewrite IH. by rewrite <- !app_assoc.
Qed.

(** After the defaulting step [tables[0]] exists: it is the override when one
    is given and the bound table otherwise. *)
Lemma index0_default (m : MySQL) (tables : list string) :
  index0 (if decide (length tables = 0) then tables ++ [Table m] else tables)
  = Ret (hd (Table m) tables).
Proof. destruct tables; reflexivity. Qed.

Lemma length_concat_rows (columns : list string) (data : list X) :
  length (concat (map (row_binds columns) data)) = length data * length columns.
Proof.
  induction data as [|row data IH]; simpl; [done|].
  rewrite length_app, IH. unfold row_binds. by rewrite length_map.
Qed.

Lemma lookup_concat_rows (columns : list string) (data : list X) (i j : nat) (row : X) (c : string) :
  data !! i = Some row -> columns !! j = Some c ->
  concat (map (row_binds columns) data) !! (i * length columns + j)
  = Some (default VNil (row !! c)).
Proof.
  revert i. induction data as [|r data IH]; intros i Hi Hj; [done|].
  assert (Hlt : j < length columns) by (eapply lookup_lt_Some; eauto).
  destruct i as [|i]; simpl in *.
  - inversion Hi; subst r. rewrite lookup_app_l by (unfold row_binds; by rewrite length_map).
    unfold row_binds. rewrite list_lookup_fmap, Hj. done.
  - rewrite lookup_app_r by (unfold row_binds; rewrite length_map; lia).
    unfold row_binds at 1. rewrite length_map.
    replace (length columns + i * length columns + j - length columns)
      with (i * length columns + j) by lia.
    by apply IH.
Qed.

Lemma row_binds_agree (columns : list string) (r r' : X) :
  (forall c, c ∈ columns -> r !! c = r' !! c) -> row_binds columns r = row_binds columns r'.
Proof.
  intros H. unfold row_binds. apply map_ext_in. intros c Hc.
  rewrite H; [done|]. by apply list_elem_of_In.
Qed.

Lemma buildInsert_closed (cfg : string -> string -> string -> string) (order : map_order)
    (m : MySQL) (D : X) (tables : list string) :
  buildInsert cfg order m D tables
  = Ret ("INSERT INTO " +:+ getPrefix cfg m +:+ hd (Table m) tables
         +:+ " (" +:+ String.concat "," (range order D).*1
         +:+ ") VALUES (" +:+ String.concat "," (replicate (size D) "?") +:+ ")",
         (range order D).*2).
Proof.
  unfold buildInsert. rewrite insert_loop, index0_default. simpl.
  by rewrite range_length.
Qed.

Lemma buildBatchInsert_closed (cfg : string -> string -> string -> string)
    (m : MySQL) (C : list string) (R : list X) (tables : list string) :
  buildBatchInsert cfg m C R tables
  = Ret ("INSERT INTO " +:+ getPrefix cfg m +:+ hd (Table m) tables
         +:+ " (" +:+ String.concat "," C +:+ ") VALUES "
         +:+ String.concat ","
               (replicate (length R)
                  ("(" +:+ String.concat "," (replicate (length C) "?") +:+ ")")),
         concat (map (row_binds C) R)).
Proof. unfold buildBatchInsert. by rewrite batch_outer_loop, index0_default. Qed.

(** ** C6: buildInsert *)

(** C6. For every data map [D], [buildInsert] returns
    [INSERT INTO <prefix><table> (<cols>) VALUES (<placeholders>)] where the
    columns are the keys of [D] in the order of the iteration, there are
    [|D|] columns, [|D|] placeholders and [|D|] binds, the binds are the
    values of [D] in the same order as the columns (pairing the columns with
    the binds gives back the entries of [D]), and the table is the first
    override when one is given and the bound table otherwise. *)
Theorem buildInsert_spec (cfg : string -> string -> string -> string) (order : map_order)
    (m : MySQL) (D : X) (tables : list string) :
  let columns := (range order D).*1 in
  let placeholders := replicate (size D) "?" in
  let binds := (range order D).*2 in
  buildInsert cfg order m D tables
  = Ret ("INSERT INTO " +:+ getPrefix cfg m +:+ hd (Table m) tables
         +:+ " (" +:+ String.concat "," columns
         +:+ ") VALUES (" +:+ String.concat "," placeholders +:+ ")", binds)
  /\ length columns = size D
  /\ length placeholders = size D
  /\ length binds = size D
  /\ zip columns binds ≡ₚ map_to_list D
  /\ (forall i k v, columns !! i = Some k -> binds !! i = Some v -> D !! k = Some v).
Proof.
  intros columns placeholders binds. subst columns placeholders binds.
  split; [|split; [|split; [|split; [|split]]]].
  - apply buildInsert_closed.
  - by rewrite length_fmap, range_length.
  - by rewrite length_replicate.
  - by rewrite length_fmap, range_length.
  - rewrite zip_fst_snd. apply range_perm.
  - intros i k v Hk Hv. rewrite list_lookup_fmap in Hk. rewrite list_lookup_fmap in Hv.
    destruct (range order D !! i) as [[k' v']|] eqn:E; simpl in *; [|done].
    inversion Hk; inversion Hv; subst.
    apply elem_of_map_to_list. rewrite <- (range_perm order D).
    eapply list_elem_of_lookup_2; eauto.
Qed.

(** ** C5: buildBatchInsert *)

(** C5. For every column list [C] and row list [R], [buildBatchInsert]
    returns [|R|] groups [(?,...,?)] of [|C|] placeholders each and
    [|R|*|C|] binds; the bind at position [i*|C|+j] is what row [i] stores
    under column [j], the nil interface when the row has no such key; rows
    that agree on the keys of [C] give the same result. *)
Theorem buildBatchInsert_spec (cfg : string -> string -> string -> string)
    (m : MySQL) (C : list string) (R : list X) (tables : list string) :
  let group := "(" +:+ String.concat "," (replicate (length C) "?") +:+ ")" in
  let binds := concat (map (row_binds C) R) in
  buildBatchInsert cfg m C R tables
  = Ret ("INSERT INTO " +:+ getPrefix cfg m +:+ hd (Table m) tables
         +:+ " (" +:+ String.concat "," C
         +:+ ") VALUES " +:+ String.concat "," (replicate (length R) group), binds)
  /\ length binds = length R * length C
  /\ (forall i j row c, R !! i = Some row -> C !! j = Some c ->
        binds !! (i * length C + j) = Some (default VNil (row !! c)))
  /\ (forall i j row c, R !! i = Some row -> C !! j = Some c -> row !! c = None ->
        binds !! (i * length C + j) = Some VNil)
  /\ (forall R', Forall2 (fun r r' : X => forall c, c ∈ C -> r !! c = r' !! c) R R' ->
        buildBatchInsert cfg m C R' tables = buildBatchInsert cfg m C R tables).
Proof.
  intros group binds. subst group binds.
  pose proof (fun R0 => buildBatchInsert_closed cfg m C R0 tables) as Hform.
  split; [apply Hform|]. split; [apply length_concat_rows|].
  split; [intros; by eapply lookup_concat_rows|].
  split.
  - intros i j row c Hi Hj Hnone.
    erewrite lookup_concat_rows by eauto. by rewrite Hnone.
  - intros R' HR. rewrite !Hform.
    rewrite <- (Forall2_length _ _ _ HR).
    replace (map (row_binds C) R') with (map (row_binds C) R); [done|].
    induction HR as [|r r' R0 R0' Hr _ IH]; simpl; [done|].
    by rewrite IH, (row_binds_agree C r r' Hr).
Qed.

(** ** The builders, case by case *)

Lemma join_loop (joins clauses : list string) :
  foldl (fun clauses join => clauses ++ [join]) clauses joins = clauses ++ joins.
Proof.
  revert clauses. induction joins as [|j joins IH]; intros clauses; simpl.
  - by rewrite app_nil_r.
  - rewrite IH. by rewrite <- app_assoc.
Qed.

Lemma forallb_perm {A} (f : A -> bool) (l l' : list A) :
  l ≡ₚ l' -> forallb f l = forallb f l'.
Proof.
  induction 1 as [|x l l' _ IH|x y l|l l' l'' _ IH1 _ IH2]; simpl.
  - done.
  - by rewrite IH.
  - destruct (f x), (f y); done.
  - by rewrite IH1.
Qed.

Lemma update_loop (l : list (string * value)) (set : list string) (binds : list value) :
  foldlM update_step (set, binds) l
  = if forallb (fun kv : string * value => negb (is_nil_expr kv.2)) l
    then Ret (set ++ map spec_set_clause l, binds ++ concat (map spec_set_binds l))
    else Panic PanicNilDereference.
Proof.
  revert set binds. induction l as [|[k v] l IH]; intros set binds; simpl.
  - by rewrite !app_nil_r.
  - destruct v as [| | |[e|]| | | | |]; simpl; try reflexivity;
      unfold mbind, result_bind; rewrite IH;
      destruct (forallb _ l); try reflexivity;
      unfold spec_set_clause, spec_set_binds; simpl; by rewrite <- !app_assoc.
Qed.

Ltac case_key q k :=
  destruct (q !! k) as [[]|]; try reflexivity.

Lemma buildQuery_cases (cfg : string -> string -> string -> string) (m : MySQL) (q : X) :
  buildQuery cfg m q
  = if query_typed q
    then Ret (String.concat " " (spec_query_clauses cfg m q), default [] (get_slice q "binds"))
    else Panic PanicTypeAssertion.
Proof.
  unfold buildQuery, query_typed, key_typed, spec_query_clauses, spec_from,
    get_string, get_int, get_strings, get_slice.
  case_key q "select"; case_key q "table"; case_key q "join";
    case_key q "where"; case_key q "group"; case_key q "order";
    case_key q "offset"; case_key q "limit"; case_key q "binds";
    cbn -[String.concat pretty]; rewrite join_loop, <- ?app_assoc, ?app_nil_r; reflexivity.
Qed.

Lemma buildDelete_cases (cfg : string -> string -> string -> string) (m : MySQL) (q : X) :
  buildDelete cfg m q
  = if cond_typed q
    then Ret (String.concat " " (spec_delete_clauses cfg m q), default [] (get_slice q "binds"))
    else Panic PanicTypeAssertion.
Proof.
  unfold buildDelete, cond_typed, key_typed, spec_delete_clauses, get_string, get_slice.
  case_key q "table"; case_key q "where"; case_key q "binds".
Qed.

Lemma buildUpdate_cases (cfg : string -> string -> string -> string) (order : map_order)
    (m : MySQL) (q D : X) :
  buildUpdate cfg order m q D
  = if key_typed is_string q "table"
    then if nil_free D
         then if key_typed is_string q "where" && key_typed is_slice q "binds"
              then Ret (String.concat " " (spec_update_clauses cfg m q (range order D)),
                        concat (map spec_set_binds (range order D))
                        ++ default [] (get_slice q "binds"))
              else Panic PanicTypeAssertion
         else Panic PanicNilDereference
    else Panic PanicTypeAssertion.
Proof.
  unfold buildUpdate, nil_free. rewrite <- (forallb_perm _ _ _ (range_perm order D)).
  unfold key_typed, spec_update_clauses, get_string, get_slice.
  case_key q "table"; simpl; rewrite update_loop;
    destruct (forallb _ (range order D)); try reflexivity; simpl;
    case_key q "where"; case_key q "binds"; simpl; by rewrite ?app_nil_r.
Qed.

(** ** C7: buildQuery *)

(** C7. For a condition map whose entries have the documented types,
    [buildQuery] joins with single spaces, in this order: [SELECT <select>]
    ([*] without the key), [FROM <prefix><table>] (with [AS a] and then every
    join string when the key [join] is present), and [WHERE], [GROUP BY],
    [ORDER BY], [OFFSET], [LIMIT], each only when its key is present; the
    binds are the sequence under [binds], or empty without the key.  For the
    empty map the result is [SELECT * FROM <prefix><table>] with no binds. *)
Theorem buildQuery_spec (cfg : string -> string -> string -> string) (m : MySQL) (Q : X) :
  query_typed Q = true ->
  buildQuery cfg m Q
  = Ret (String.concat " "
           (["SELECT " +:+ default "*" (get_string Q "select")]
            ++ spec_from cfg m Q
            ++ clause "WHERE " (get_string Q "where")
            ++ clause "GROUP BY " (get_string Q "group")
            ++ clause "ORDER BY " (get_string Q "order")
            ++ clause "OFFSET " (pretty <$> get_int Q "offset")
            ++ clause "LIMIT " (pretty <$> get_int Q "limit")),
         default [] (get_slice Q "binds"))
  /\ (forall b, Q !! "binds" = Some (VSlice b) -> default [] (get_slice Q "binds") = b)
  /\ (Q !! "binds" = None -> default [] (get_slice Q "binds") = [])
  /\ buildQuery cfg m ∅ = Ret ("SELECT * FROM " +:+ getPrefix cfg m +:+ Table m, []).
Proof.
  intros HQ. split; [|split; [|split]].
  - rewrite buildQuery_cases, HQ. reflexivity.
  - intros b Hb. unfold get_slice. by rewrite Hb.
  - intros Hb. unfold get_slice. by rewrite Hb.
  - reflexivity.
Qed.

Lemma buildQuery_spec_witness :
  buildQuery (fun _ _ d => d) (mkMySQL "" "user")
    (<["select" := VString "id,name"]> (<["join" := VStrings ["LEFT JOIN city AS b ON a.city = b.id"]]>
      (<["where" := VString "a.age > ? AND b.name IN (?)"]> (<["order" := VString "a.id DESC"]>
        (<["offset" := VInt 20]> (<["limit" := VInt 10]>
          (<["binds" := VSlice [VInt 18; VStrings ["x"; "y"]]]> ∅)))))))
  = Ret ("SELECT id,name FROM user AS a LEFT JOIN city AS b ON a.city = b.id WHERE a.age > ? AND b.name IN (?) ORDER BY a.id DESC OFFSET 20 LIMIT 10",
         [VInt 18; VStrings ["x"; "y"]]).
Proof.
  refine (eq_trans (proj1 (buildQuery_spec _ _ _ _)) _).
  - vm_compute. reflexivity.
  - vm_compute. reflexivity.
Defined.

(** ** C4: buildUpdate *)

(** C4. For a condition map [Q] with the documented types and a data map
    [D] without nil expression pointers, [buildUpdate] emits, for every
    entry of [D] in the order of the iteration, [col = <raw fragment>] when
    the value is an Expression Literal and [col = ?] otherwise; its bind
    list is the binds of the entries in that order (the literal's own binds
    in their order for a literal, the value itself otherwise) followed by the
    binds of [Q]. *)
Theorem buildUpdate_spec (cfg : string -> string -> string -> string) (order : map_order)
    (m : MySQL) (Q D : X) :
  cond_typed Q = true -> nil_free D = true ->
  let entries := range order D in
  let set := map spec_set_clause entries in
  let set_binds := concat (map spec_set_binds entries) in
  let cond_binds := default [] (get_slice Q "binds") in
  buildUpdate cfg order m Q D
  = Ret (String.concat " "
           (["UPDATE " +:+ getPrefix cfg m +:+ default (Table m) (get_string Q "table");
             "SET " +:+ String.concat "," set]
            ++ clause "WHERE " (get_string Q "where")),
         set_binds ++ cond_binds)
  /\ entries ≡ₚ map_to_list D
  /\ (forall k s a, spec_set_clause (k, Expr s a) = k +:+ " = " +:+ s
                    /\ spec_set_binds (k, Expr s a) = a)
  /\ (forall k v, (forall p, v <> VExprPtr p) ->
                  spec_set_clause (k, v) = k +:+ " = ?" /\ spec_set_binds (k, v) = [v])
  /\ (forall b, Q !! "binds" = Some (VSlice b) -> cond_binds = b).
Proof.
  intros HQ HD entries set set_binds cond_binds.
  subst entries set set_binds cond_binds.
  unfold cond_typed in HQ. apply andb_prop in HQ as [HQ Hb]. apply andb_prop in HQ as [Ht Hw].
  split; [|split; [|split; [|split]]].
  - rewrite buildUpdate_cases, Ht, HD, Hw, Hb. reflexivity.
  - apply range_perm.
  - intros k s a. split; reflexivity.
  - intros k v Hv. destruct v as [| | |p| | | | |]; try (split; reflexivity).
    by destruct (Hv p).
  - intros b Hq. unfold get_slice. by rewrite Hq.
Qed.

Lemma buildUpdate_spec_witness :
  buildUpdate (fun _ _ d => d) stored_order (mkMySQL "" "goods")
    (<["where" := VString "id = ?"]> (<["binds" := VSlice [VInt 7]]> ∅))
    (<["name" := VString "pen"]> (<["price" := Expr "price * ? + ?" [VInt 2; VInt 100]]> ∅))
  = Ret ("UPDATE goods SET name = ?,price = price * ? + ? WHERE id = ?",
         [VString "pen"; VInt 2; VInt 100; VInt 7]).
Proof.
  refine (eq_trans (proj1 (buildUpdate_spec _ _ _ _ _ _ _)) _).
  - vm_compute. reflexivity.
  - vm_compute. reflexivity.
  - vm_compute. reflexivity.
Defined.

(** ** C3: when the builders return *)

(** C3, as stated, fails: a [limit] that is not an [int] makes [buildQuery]
    panic at [v.(int)]. *)
Lemma buildQuery_panics_on_string_limit :
  buildQuery (fun _ _ d => d) (mkMySQL "" "user") (<["limit" := VString "10"]> ∅)
  = Panic PanicTypeAssertion.
Proof. vm_compute. reflexivity. Qed.

(** C3, amended. [buildInsert] and [buildBatchInsert] return a pair on every
    input.  [buildUpdate], [buildQuery] and [buildDelete] return a pair
    exactly when every key they read carries, if present, the dynamic type
    they assert ([string] for [select], [table], [where], [group], [order];
    [[]string] for [join]; [int] for [offset], [limit]; [[]interface{}] for
    [binds]) and, for [buildUpdate], no data value is a nil expression
    pointer; otherwise they panic. *)
Theorem builders_return_iff_typed (cfg : string -> string -> string -> string)
    (order : map_order) (m : MySQL) :
  (forall D tables, is_Ret (buildInsert cfg order m D tables) = true)
  /\ (forall C R tables, is_Ret (buildBatchInsert cfg m C R tables) = true)
  /\ (forall Q D, is_Ret (buildUpdate cfg order m Q D) = cond_typed Q && nil_free D)
  /\ (forall Q, is_Ret (buildQuery cfg m Q) = query_typed Q)
  /\ (forall Q, is_Ret (buildDelete cfg m Q) = cond_typed Q).
Proof.
  split; [|split; [|split; [|split]]].
  - intros D tables. by rewrite buildInsert_closed.
  - intros C R tables. by rewrite buildBatchInsert_closed.
  - intros Q D. rewrite buildUpdate_cases. unfold cond_typed.
    destruct (key_typed is_string Q "table"), (nil_free D),
      (key_typed is_string Q "where"), (key_typed is_slice Q "binds"); reflexivity.
  - intros Q. rewrite buildQuery_cases. by destruct (query_typed Q).
  - intros Q. rewrite buildDelete_cases. by destruct (cond_typed Q).
Qed.

(** * Properties of the executor methods *)

Arguments buildInsert : simpl never.
Arguments buildBatchInsert : simpl never.
Arguments buildUpdate : simpl never.
Arguments buildQuery : simpl never.
Arguments buildDelete : simpl never.

Lemma getDB_registered (w : world) (m : MySQL) (s : store) :
  handle m ∈ dbmap w -> getDB w m s = (Ret (handle m), s).
Proof.
  intros H. unfold getDB, handle in *.
  destruct (decide (DB m = "")); destruct (decide (_ ∈ dbmap w)); done.
Qed.

Lemma M_bind_eq {A B} (c : M A) (f : A -> M B) (s : store) :
  (c ≫= f) s = match c s with
               | (Ret a, s') => f a s'
               | (Panic p, s') => (Panic p, s')
               end.
Proof. reflexivity. Qed.

Ltac run_M :=
  unfold call_buildUpdate, call_In, call_Exec, call_Get_int, call_Get, call_Select,
    call_Begin, call_TxExec, call_Rollback, call_Commit,
    read_query, lift, emit, history, assign_count, assign_query;
  unfold mbind, M_bind, mret, M_ret.

(** ** The methods on small inputs *)

Example Count_nil_map :
  Count sample_world (mkMySQL "" "user") [] (init None 7)
  = (Panic PanicNilMap, init None 7).
Proof. vm_compute. reflexivity. Qed.

Example Find_unregistered :
  Find sample_world (mkMySQL "replica" "user") ∅ (init None 0)
  = (Panic (PanicMsg "mysql error: database replica is not initialized"),
     {| trace := [EvLogErrorf "[MySQL] Database Error: %s is not initialized" ["replica"]];
        query_map := None; count_dest := 0 |}).
Proof. vm_compute. reflexivity. Qed.

Example FindOne_no_rows_not_logged :
  (FindOne sample_world (mkMySQL "" "user") (init (Some ∅) 0))
  = (Ret (Some (mkError "sql: no rows in result set")),
     {| trace := [EvIn "SELECT * FROM user LIMIT 1" [];
                  EvGet "SELECT * FROM user LIMIT 1" []
                    (Some (mkError "sql: no rows in result set"))];
        query_map := Some (<["limit" := VInt 1]> ∅); count_dest := 0 |}).
Proof. vm_compute. reflexivity. Qed.

(** ** The single-statement methods, run on a store *)

Lemma Count_run (w : world) (m : MySQL) (q : X)
    (columns : list string) (tr : list event) (d : Z) :
  handle m ∈ dbmap w ->
  Count w m columns {| trace := tr; query_map := Some q; count_dest := d |}
  = let qc := <["select" := count_select columns]> q in
    match buildQuery (GetEnvString w) m qc with
    | Ret (sql, binds) =>
        let _sql := (sqlx_In w sql binds).1.1 in
        let args := (sqlx_In w sql binds).1.2 in
        let reply := db_Get_int w (handle m) (tr ++ [EvIn sql binds]) _sql args in
        (Ret reply.2,
         {| trace := tr ++ [EvIn sql binds; EvGetInt _sql args reply];
            query_map := Some qc; count_dest := default 0%Z reply.1 |})
    | Panic p => (Panic p, {| trace := tr; query_map := Some qc; count_dest := d |})
    end.
Proof.
  intros Hreg. unfold Count. rewrite M_bind_eq, getDB_registered by done.
  replace (match columns with
           | [] => assign_query "select" (VString "COUNT(*)")
           | c :: _ => assign_query "select" (VString ("COUNT(" +:+ c +:+ ")"))
           end) with (assign_query "select" (count_select columns))
    by (by destruct columns).
  run_M. simpl.
  destruct (buildQuery _ _ _) as [[sql binds]|p]; [|reflexivity].
  destruct (sqlx_In w sql binds) as [[_sql args] e]. simpl.
  destruct (db_Get_int _ _ _ _ _) as [scanned err]. simpl.
  by rewrite <- ?app_assoc.
Qed.

Lemma FindOne_run (w : world) (m : MySQL) (q : X) (tr : list event) (d : Z) :
  handle m ∈ dbmap w ->
  FindOne w m {| trace := tr; query_map := Some q; count_dest := d |}
  = let q1 := <["limit" := VInt 1]> q in
    match buildQuery (GetEnvString w) m q1 with
    | Ret (sql, binds) =>
        let _sql := (sqlx_In w sql binds).1.1 in
        let args := (sqlx_In w sql binds).1.2 in
        let err := db_Get w (handle m) (tr ++ [EvIn sql binds]) _sql args in
        (Ret err,
         {| trace := tr ++ [EvIn sql binds; EvGet _sql args err]
                        ++ read_log "[MySQL] FindOne Error: " err;
            query_map := Some q1; count_dest := d |})
    | Panic p => (Panic p, {| trace := tr; query_map := Some q1; count_dest := d |})
    end.
Proof.
  intros Hreg. unfold FindOne. rewrite M_bind_eq, getDB_registered by done.
  run_M. simpl.
  destruct (buildQuery _ _ _) as [[sql binds]|p]; [|reflexivity].
  destruct (sqlx_In w sql binds) as [[_sql args] e]. simpl.
  unfold report_read, read_log.
  destruct (db_Get _ _ _ _ _) as [err|]; simpl.
  - destruct (decide _); run_M; simpl; by rewrite <- ?app_assoc, ?app_nil_r.
  - by rewrite <- ?app_assoc.
Qed.

Lemma Find_run (w : world) (m : MySQL) (q : X) (s : store) :
  handle m ∈ dbmap w ->
  Find w m q s
  = match buildQuery (GetEnvString w) m q with
    | Ret (sql, binds) =>
        let _sql := (sqlx_In w sql binds).1.1 in
        let args := (sqlx_In w sql binds).1.2 in
        let err := db_Select w (handle m) (trace s ++ [EvIn sql binds]) _sql args in
        (Ret err,
         {| trace := trace s ++ [EvIn sql binds; EvSelect _sql args err]
                        ++ read_log "[MySQL] Find Error: " err;
            query_map := query_map s; count_dest := count_dest s |})
    | Panic p => (Panic p, s)
    end.
Proof.
  intros Hreg. unfold Find. rewrite M_bind_eq, getDB_registered by done.
  run_M. simpl.
  destruct (buildQuery _ _ _) as [[sql binds]|p]; [|reflexivity].
  destruct (sqlx_In w sql binds) as [[_sql args] e]. simpl.
  unfold report_read, read_log.
  destruct (db_Select _ _ _ _ _) as [err|]; simpl.
  - destruct (decide _); run_M; simpl; by rewrite <- ?app_assoc, ?app_nil_r.
  - by rewrite <- ?app_assoc.
Qed.

Lemma FindAll_run (w : world) (m : MySQL) (columns : list string) (s : store) :
  handle m ∈ dbmap w ->
  FindAll w m columns s
  = match buildQuery (GetEnvString w) m (findall_query columns) with
    | Ret (sql, binds) =>
        let err := db_Select w (handle m) (trace s) sql binds in
        (Ret err,
         {| trace := trace s ++ [EvSelect sql binds err]
                        ++ read_log "[MySQL] FindAll Error: " err;
            query_map := query_map s; count_dest := count_dest s |})
    | Panic p => (Panic p, s)
    end.
Proof.
  intros Hreg. unfold FindAll. rewrite M_bind_eq, getDB_registered by done.
  fold (findall_query columns).
  run_M. simpl.
  destruct (buildQuery _ _ _) as [[sql binds]|p]; [|reflexivity].
  unfold report_read, read_log.
  destruct (db_Select _ _ _ _ _) as [err|]; simpl.
  - destruct (decide _); run_M; simpl; by rewrite <- ?app_assoc, ?app_nil_r.
  - done.
Qed.

Lemma Update_run (w : world) (order : map_order) (m : MySQL) (q D : X) (s : store) :
  handle m ∈ dbmap w ->
  Update w order m q D s
  = match buildUpdate (GetEnvString w) order m q D with
    | Ret (sql, binds) =>
        let _sql := (sqlx_In w sql binds).1.1 in
        let args := (sqlx_In w sql binds).1.2 in
        let tr := trace s ++ update_prints sql binds ++ [EvIn sql binds] in
        let r := db_Exec w (handle m) tr _sql args in
        (Ret (rows_or_error r),
         {| trace := tr ++ [EvExec _sql args r] ++ write_log "[MySQL] Update Error: " r;
            query_map := query_map s; count_dest := count_dest s |})
    | Panic p => (Panic p, s)
    end.
Proof.
  intros Hreg. unfold Update. rewrite M_bind_eq, getDB_registered by done.
  run_M. simpl.
  destruct (buildUpdate _ _ _ _ _) as [[sql binds]|p]; [|reflexivity]. simpl.
  destruct (sqlx_In w sql binds) as [[_sql args] e]. simpl.
  rewrite <- ?app_assoc. simpl.
  destruct (db_Exec _ _ _ _ _) as [err|res]; simpl.
  - by rewrite <- ?app_assoc.
  - destruct (RowsAffected res). simpl. by rewrite <- ?app_assoc.
Qed.

Lemma Delete_run (w : world) (m : MySQL) (q : X) (s : store) :
  handle m ∈ dbmap w ->
  Delete w m q s
  = match buildDelete (GetEnvString w) m q with
    | Ret (sql, binds) =>
        let _sql := (sqlx_In w sql binds).1.1 in
        let args := (sqlx_In w sql binds).1.2 in
        let tr := trace s ++ [EvIn sql binds] in
        let r := db_Exec w (handle m) tr _sql args in
        (Ret (rows_or_error r),
         {| trace := tr ++ [EvExec _sql args r] ++ write_log "[MySQL] Delete Error: " r;
            query_map := query_map s; count_dest := count_dest s |})
    | Panic p => (Panic p, s)
    end.
Proof.
  intros Hreg. unfold Delete. rewrite M_bind_eq, getDB_registered by done.
  run_M. simpl.
  destruct (buildDelete _ _ _) as [[sql binds]|p]; [|reflexivity]. simpl.
  destruct (sqlx_In w sql binds) as [[_sql args] e]. simpl.
  destruct (db_Exec _ _ _ _ _) as [err|res]; simpl.
  - by rewrite <- ?app_assoc.
  - destruct (RowsAffected res). simpl. by rewrite <- ?app_assoc.
Qed.

Lemma sample_registered (t : string) : handle (mkMySQL "" t) ∈ dbmap sample_world.
Proof. change ("db" ∈ ({["db"]} : gset string)). by apply elem_of_singleton_2. Qed.

(** ** C8: Count and FindOne overwrite the caller's entries *)

(** C8. With a registered handle and an allocated condition map [q],
    [Count] leaves the caller's map equal to [q] with [select] set to
    "COUNT(*)" ("COUNT(<column>)" for a column argument) and [FindOne] leaves
    it equal to [q] with [limit] set to [1], whatever [q] held under these
    keys; and the statement each of them passes on is the one [buildQuery]
    builds from the map so updated. *)
Theorem Count_FindOne_overwrite (w : world) (m : MySQL) (q : X)
    (columns : list string) (tr : list event) (d : Z) :
  handle m ∈ dbmap w ->
  let s := {| trace := tr; query_map := Some q; count_dest := d |} in
  let qc := <["select" := count_select columns]> q in
  let q1 := <["limit" := VInt 1]> q in
  query_map (Count w m columns s).2 = Some qc
  /\ qc !! "select" = Some (count_select columns)
  /\ (forall k, k <> "select" -> qc !! k = q !! k)
  /\ (forall sql binds, buildQuery (GetEnvString w) m qc = Ret (sql, binds) ->
        exists rest, trace (Count w m columns s).2 = tr ++ EvIn sql binds :: rest)
  /\ query_map (FindOne w m s).2 = Some q1
  /\ q1 !! "limit" = Some (VInt 1)
  /\ (forall k, k <> "limit" -> q1 !! k = q !! k)
  /\ (forall sql binds, buildQuery (GetEnvString w) m q1 = Ret (sql, binds) ->
        exists rest, trace (FindOne w m s).2 = tr ++ EvIn sql binds :: rest).
Proof.
  intros Hreg s qc q1. subst s.
  rewrite Count_run, FindOne_run by done. fold qc q1. cbv zeta.
  split; [|split; [|split; [|split; [|split; [|split; [|split]]]]]].
  - by destruct (buildQuery _ m qc) as [[sql binds]|p].
  - apply lookup_insert_eq.
  - intros k Hk. by apply lookup_insert_ne.
  - intros sql binds ->. simpl. eauto.
  - by destruct (buildQuery _ m q1) as [[sql binds]|p].
  - apply lookup_insert_eq.
  - intros k Hk. by apply lookup_insert_ne.
  - intros sql binds ->. simpl. eauto.
Qed.

Lemma Count_FindOne_overwrite_witness :
  query_map (Count sample_world (mkMySQL "" "user") ["id"]
               {| trace := []; count_dest := 0;
                  query_map := Some (<["select" := VString "name"]> (<["limit" := VInt 50]> ∅)) |}).2
  = Some (<["select" := VString "COUNT(id)"]> (<["limit" := VInt 50]> ∅))
  /\ query_map (FindOne sample_world (mkMySQL "" "user")
               {| trace := []; count_dest := 0;
                  query_map := Some (<["select" := VString "name"]> (<["limit" := VInt 50]> ∅)) |}).2
  = Some (<["select" := VString "name"]> (<["limit" := VInt 1]> ∅)).
Proof.
  pose proof (Count_FindOne_overwrite sample_world (mkMySQL "" "user")
                (<["select" := VString "name"]> (<["limit" := VInt 50]> ∅)) ["id"] [] 0
                (sample_registered "user")) as H.
  cbv zeta in H. destruct H as (HC & _ & _ & _ & HF & _).
  split.
  - rewrite HC. vm_compute. reflexivity.
  - rewrite HF. vm_compute. reflexivity.
Defined.

(** ** C10: Count assigns the destination on every return *)

(** C10. With a registered handle and a condition map that is well typed
    once [select] is set, [Count] returns the error of [db.Get] and leaves in
    the caller's integer the value of its local [count]: what the driver
    scanned, and [0] when it scanned nothing, as on a failing query; the
    integer's previous value [d0] is lost on success and on failure alike. *)
Theorem Count_assigns_destination (w : world) (m : MySQL) (q : X)
    (columns : list string) (tr : list event) (d0 : Z) :
  handle m ∈ dbmap w ->
  query_typed (<["select" := count_select columns]> q) = true ->
  let qc := <["select" := count_select columns]> q in
  let sql := String.concat " " (spec_query_clauses (GetEnvString w) m qc) in
  let binds := default [] (get_slice qc "binds") in
  let _sql := (sqlx_In w sql binds).1.1 in
  let args := (sqlx_In w sql binds).1.2 in
  let reply := db_Get_int w (handle m) (tr ++ [EvIn sql binds]) _sql args in
  let out := Count w m columns {| trace := tr; query_map := Some q; count_dest := d0 |} in
  out = (Ret reply.2,
         {| trace := tr ++ [EvIn sql binds; EvGetInt _sql args reply];
            query_map := Some qc; count_dest := default 0%Z reply.1 |})
  /\ (forall n, reply.1 = Some n -> count_dest out.2 = n)
  /\ (reply.1 = None -> count_dest out.2 = 0%Z).
Proof.
  intros Hreg Hq qc sql binds _sql args reply out.
  assert (Hout : out = (Ret reply.2,
         {| trace := tr ++ [EvIn sql binds; EvGetInt _sql args reply];
            query_map := Some qc; count_dest := default 0%Z reply.1 |})).
  { subst out. rewrite Count_run by done. cbv zeta. fold qc.
    rewrite buildQuery_cases. fold qc in Hq. rewrite Hq. reflexivity. }
  split; [exact Hout|]. rewrite Hout. simpl.
  split; [intros n ->; reflexivity | intros ->; reflexivity].
Qed.

Lemma Count_assigns_destination_witness :
  Count sample_world (mkMySQL "" "user") []
    {| trace := []; query_map := Some (<["where" := VString "age > ?"]> (<["binds" := VSlice [VInt 18]]> ∅));
       count_dest := 42 |}
  = (Ret (Some (mkError "Error 1146: Table 'user' doesn't exist")),
     {| trace := [EvIn "SELECT COUNT(*) FROM user WHERE age > ?" [VInt 18];
                  EvGetInt "SELECT COUNT(*) FROM user WHERE age > ?" [VInt 18]
                    (None, Some (mkError "Error 1146: Table 'user' doesn't exist"))];
        query_map := Some (<["select" := VString "COUNT(*)"]>
                             (<["where" := VString "age > ?"]> (<["binds" := VSlice [VInt 18]]> ∅)));
        count_dest := 0 |}).
Proof.
  refine (eq_trans (proj1 (Count_assigns_destination sample_world (mkMySQL "" "user")
            (<["where" := VString "age > ?"]> (<["binds" := VSlice [VInt 18]]> ∅)) [] [] 42
            (sample_registered "user") _)) _).
  - vm_compute. reflexivity.
  - vm_compute. reflexivity.
Defined.

(** * The transaction coordinator *)

Lemma extend_nil (s : store) : extend s [] = s.
Proof. destruct s. unfold extend. simpl. by rewrite app_nil_r. Qed.

Lemma extend_extend (s : store) (a b : list event) : extend (extend s a) b = extend s (a ++ b).
Proof. unfold extend. simpl. by rewrite app_assoc. Qed.

Lemma tx_arm_other (w : world) (order : map_order) (m : MySQL) (db key : string)
    (opt : X) (s : store) :
  known_tag key = false -> tx_arm w order m db key opt s = (Ret None, s).
Proof.
  unfold known_tag, tx_arm. intros H.
  repeat (destruct (decide _) as [->|?]; [done|]). reflexivity.
Qed.

Lemma tx_arm_insert_run (w : world) (order : map_order) (m : MySQL) (db : string)
    (opt : X) (s : store) :
  key_typed is_string opt "table" = true -> key_typed is_X opt "data" = true ->
  tx_arm w order m db "insert" opt s
  = match buildInsert (GetEnvString w) order m (get_X opt "data") (get_table opt) with
    | Ret (sql, binds) =>
        let r := tx_Exec w db (trace s) sql binds in
        (Ret r, extend s [EvTxExec sql binds r])
    | Panic p => (Panic p, s)
    end.
Proof.
  unfold key_typed, get_X, get_table, tx_arm. intros Ht Hd.
  destruct (decide _) as [_|?]; [|done].
  destruct (opt !! "table") as [[]|]; try discriminate Ht;
    destruct (opt !! "data") as [[]|]; try discriminate Hd;
    run_M; simpl;
    destruct (buildInsert _ _ _ _ _) as [[sql binds]|p]; reflexivity.
Qed.

Lemma tx_arm_batchInsert_run (w : world) (order : map_order) (m : MySQL) (db : string)
    (opt : X) (s : store) :
  key_typed is_string opt "table" = true -> key_typed is_strings opt "columns" = true ->
  key_typed is_Xs opt "data" = true ->
  tx_arm w order m db "batchInsert" opt s
  = match buildBatchInsert (GetEnvString w) m (default [] (get_strings opt "columns"))
            (get_Xs opt "data") (get_table opt) with
    | Ret (sql, binds) =>
        let r := tx_Exec w db (trace s) sql binds in
        (Ret r, extend s [EvTxExec sql binds r])
    | Panic p => (Panic p, s)
    end.
Proof.
  unfold key_typed, get_Xs, get_strings, get_table, tx_arm. intros Ht Hc Hd.
  destruct (decide _) as [?|_]; [done|]. destruct (decide _) as [_|?]; [|done].
  destruct (opt !! "table") as [[]|]; try discriminate Ht;
    destruct (opt !! "columns") as [[]|]; try discriminate Hc;
    destruct (opt !! "data") as [[]|]; try discriminate Hd;
    run_M; simpl;
    first [ destruct (buildBatchInsert _ _ _ _ _) as [[sql binds]|p]; reflexivity
          | reflexivity ].
Qed.

Lemma tx_arm_update_run (w : world) (order : map_order) (m : MySQL) (db : string)
    (opt : X) (s : store) :
  key_typed is_X opt "query" = true -> key_typed is_X opt "data" = true ->
  tx_arm w order m db "update" opt s
  = match buildUpdate (GetEnvString w) order m (get_X opt "query") (get_X opt "data") with
    | Ret (sql, binds) =>
        let _sql := (sqlx_In w sql binds).1.1 in
        let args := (sqlx_In w sql binds).1.2 in
        let pre := [EvPrintln [VString "执行更新"]] ++ update_prints sql binds
                   ++ [EvIn sql binds] in
        let r := tx_Exec w db (trace s ++ pre) _sql args in
        (Ret r, extend s (pre ++ [EvTxExec _sql args r]))
    | Panic p => (Panic p, extend s [EvPrintln [VString "执行更新"]])
    end.
Proof.
  unfold key_typed, get_X, tx_arm. intros Hq Hd.
  do 2 (destruct (decide _) as [?|_]; [done|]). destruct (decide _) as [_|?]; [|done].
  destruct (opt !! "query") as [[]|]; try discriminate Hq;
    destruct (opt !! "data") as [[]|]; try discriminate Hd;
    run_M; simpl;
    (destruct (buildUpdate _ _ _ _ _) as [[sql binds]|p]; [|reflexivity]); simpl;
    destruct (sqlx_In w sql binds) as [[_sql args] e]; unfold extend; simpl;
    by rewrite <- ?app_assoc.
Qed.

Lemma tx_arm_delete_run (w : world) (order : map_order) (m : MySQL) (db : string)
    (opt : X) (s : store) :
  tx_arm w order m db "delete" opt s
  = match buildDelete (GetEnvString w) m opt with
    | Ret (sql, binds) =>
        let _sql := (sqlx_In w sql binds).1.1 in
        let args := (sqlx_In w sql binds).1.2 in
        let r := tx_Exec w db (trace s ++ [EvIn sql binds]) _sql args in
        (Ret r, extend s ([EvIn sql binds] ++ [EvTxExec _sql args r]))
    | Panic p => (Panic p, s)
    end.
Proof.
  unfold tx_arm.
  do 3 (destruct (decide _) as [?|_]; [done|]). destruct (decide _) as [_|?]; [|done].
  run_M; simpl.
  destruct (buildDelete _ _ _) as [[sql binds]|p]; [|reflexivity]. simpl.
  destruct (sqlx_In w sql binds) as [[_sql args] e]; unfold extend; simpl.
  by rewrite <- ?app_assoc.
Qed.

(** ** The arms and the loop on batches with the documented shape *)





(** ** C1: DoTransactions is all or nothing *)



Example sample_batch_rolls_back :
  DoTransactions sample_world (fun _ => stored_order) (mkMySQL "" "stock")
    sample_batch (init None 0)
  = (Ret (Some (mkError "Error 1146: Table 'stock' doesn't exist")),
     {| trace :=
          [EvBegin None;
           EvTxExec "INSERT INTO stock (id,qty) VALUES (?,?)" [VInt 7; VInt 3] None;
           EvIn "DELETE FROM stock WHERE id = ?" [VInt 6];
           EvTxExec "DELETE FROM stock WHERE id = ?" [VInt 6]
             (Some (mkError "Error 1146: Table 'stock' doesn't exist"));
           EvRollback None;
           EvLogError ["[MySQL] DoTransactions Error: ";
                       "Error 1146: Table 'stock' doesn't exist"]];
        query_map := None; count_dest := 0 |}).
Proof. vm_compute. reflexivity. Qed.

(** ** C9: entries with another tag *)

Lemma tx_loop_only_unknown (w : world) (orders : nat -> map_order) (m : MySQL) (db : string)
    (entries : list (string * value)) :
  forallb (fun kv : string * value => negb (known_tag kv.1) && is_X kv.2) entries = true ->
  forall i s, tx_loop w orders m db i entries s = (Ret None, s).
Proof.
  induction entries as [|[key v] rest IH]; intros H i s; [done|].
  simpl in H. apply andb_prop in H as [Hkv Hrest]. apply andb_prop in Hkv as [Hk Hv].
  apply negb_true_iff in Hk. destruct v; try discriminate Hv.
  cbn [tx_loop]. rewrite M_bind_eq. unfold lift at 1. cbn [assert_X].
  rewrite M_bind_eq, tx_arm_other by done. by apply IH.
Qed.

(** C9, as stated, fails: the payload is asserted to be an [X] before the
    tag is looked at, so an entry with another tag and another payload makes
    the call panic, after [Begin] and with neither [Commit] nor [Rollback]. *)
Lemma DoTransactions_unknown_tag_panics :
  DoTransactions sample_world (fun _ => stored_order) (mkMySQL "" "stock")
    (<["note" := VString "restock"]> ∅) (init None 0)
  = (Panic PanicTypeAssertion,
     {| trace := [EvBegin None]; query_map := None; count_dest := 0 |}).
Proof. vm_compute. reflexivity. Qed.

(** C9, amended. An entry whose tag is none of [insert], [batchInsert],
    [update], [delete] and whose payload is an [X] is skipped: the switch
    leaves the store as it is and [err] nil, and the loop goes on with the
    entries after it; a batch of such entries only is begun and committed
    with no statement in between, and nil is returned. *)
Theorem unknown_tag_skipped (w : world) (orders : nat -> map_order) (m : MySQL)
    (db key : string) (opt : X) (rest : list (string * value)) (i : nat) (s : store) :
  known_tag key = false ->
  tx_arm w (orders (S i)) m db key opt s = (Ret None, s)
  /\ tx_loop w orders m db i ((key, VMap opt) :: rest) s = tx_loop w orders m db (S i) rest s
  /\ (forall operations,
        only_unknown operations = true -> handle m ∈ dbmap w ->
        db_Begin w (handle m) (trace s) = None ->
        exists c, DoTransactions w orders m operations s
                  = (Ret None, extend s [EvBegin None; EvCommit c])).
Proof.
  intros Hk. split; [by apply tx_arm_other|]. split.
  - cbn [tx_loop]. rewrite M_bind_eq. unfold lift at 1. cbn [assert_X].
    by rewrite M_bind_eq, tx_arm_other.
  - intros operations Hu Hreg Hbegin. unfold only_unknown in Hu.
    rewrite <- (forallb_perm _ _ _ (range_perm (orders 0) operations)) in Hu.
    unfold DoTransactions. rewrite M_bind_eq, getDB_registered by done.
    rewrite M_bind_eq. unfold call_Begin at 1. run_M. cbn [trace]. rewrite Hbegin.
    rewrite (tx_loop_only_unknown w orders m (handle m) _ Hu).
    eexists. unfold extend. simpl. rewrite <- !app_assoc. simpl. reflexivity.
Qed.

Lemma unknown_tag_skipped_witness :
  known_tag "note" = false
  /\ exists c,
       DoTransactions sample_world (fun _ => stored_order) (mkMySQL "" "stock")
         (<["note" := VMap (<["text" := VString "restock"]> ∅)]> ∅) (init None 0)
       = (Ret None, extend (init None 0) [EvBegin None; EvCommit c]).
Proof.
  split; [reflexivity|].
  destruct (unknown_tag_skipped sample_world (fun _ => stored_order) (mkMySQL "" "stock")
              "db" "note" ∅ [] 0 (init None 0) eq_refl) as (_ & _ & H).
  assert (Hu : only_unknown (<["note" := VMap (<["text" := VString "restock"]> ∅)]> ∅) = true)
    by (vm_compute; reflexivity).
  exact (H _ Hu (sample_registered "stock") eq_refl).
Defined.

(** * C2: which statements go through the placeholder expander *)

Lemma events_since_app (tr evs : list event) (qm qm' : option X) (d d' : Z) :
  events_since {| trace := tr; query_map := qm; count_dest := d |}
               {| trace := tr ++ evs; query_map := qm'; count_dest := d' |} = evs.
Proof. unfold events_since. simpl. by rewrite drop_app_length. Qed.

Lemma events_since_extend (s : store) (evs : list event) :
  events_since s (extend s evs) = evs.
Proof. unfold events_since, extend. simpl. by rewrite drop_app_length. Qed.

Lemma filter_read_log (tag : string) (err : option error) :
  filter is_call (read_log tag err) = [].
Proof. unfold read_log. destruct err; [destruct (decide _)|]; done. Qed.

Lemma filter_write_log (tag : string) (r : error + sql_Result) :
  filter is_call (write_log tag r) = [].
Proof. by destruct r. Qed.

Lemma findall_query_built (cfg : string -> string -> string -> string) (m : MySQL)
    (columns : list string) :
  exists sql, buildQuery cfg m (findall_query columns) = Ret (sql, []).
Proof.
  unfold findall_query. destruct (decide _); eexists; vm_compute; reflexivity.
Qed.

(** C2, as stated, fails for [FindAll]: it calls the driver with what
    [buildQuery] returned and never calls the expander. *)
Lemma FindAll_skips_expander :
  buildQuery (GetEnvString sample_world) (mkMySQL "" "user") (findall_query ["id"; "name"])
  = Ret ("SELECT id,name FROM user", [])
  /\ ~ through_expander sample_world "SELECT id,name FROM user" []
         (events_since (init None 0)
            (FindAll sample_world (mkMySQL "" "user") ["id"; "name"] (init None 0)).2).
Proof.
  split; [vm_compute; reflexivity|].
  intros [e [He _]]. vm_compute in He. discriminate He.
Qed.

(** C2, amended. With a registered handle, for [Update], [Count],
    [FindOne], [Find], [Delete] and the [update] and [delete] arms of
    [DoTransactions], the pair the builder returns is given to the expander
    and the driver is called with what the expander returns, and they make no
    other such call.  [FindAll] gives the pair [buildQuery] returns to the
    driver as it is, without calling the expander; its bind list is always
    empty. *)
Theorem statements_go_through_expander (w : world) (order : map_order) (m : MySQL)
    (s : store) :
  handle m ∈ dbmap w ->
  (forall q D sql binds,
      buildUpdate (GetEnvString w) order m q D = Ret (sql, binds) ->
      through_expander w sql binds (events_since s (Update w order m q D s).2))
  /\ (forall q columns tr d sql binds,
        buildQuery (GetEnvString w) m (<["select" := count_select columns]> q)
        = Ret (sql, binds) ->
        let s0 := {| trace := tr; query_map := Some q; count_dest := d |} in
        through_expander w sql binds (events_since s0 (Count w m columns s0).2))
  /\ (forall q tr d sql binds,
        buildQuery (GetEnvString w) m (<["limit" := VInt 1]> q) = Ret (sql, binds) ->
        let s0 := {| trace := tr; query_map := Some q; count_dest := d |} in
        through_expander w sql binds (events_since s0 (FindOne w m s0).2))
  /\ (forall q sql binds,
        buildQuery (GetEnvString w) m q = Ret (sql, binds) ->
        through_expander w sql binds (events_since s (Find w m q s).2))
  /\ (forall q sql binds,
        buildDelete (GetEnvString w) m q = Ret (sql, binds) ->
        through_expander w sql binds (events_since s (Delete w m q s).2))
  /\ (forall db opt sql binds,
        key_typed is_X opt "query" = true -> key_typed is_X opt "data" = true ->
        buildUpdate (GetEnvString w) order m (get_X opt "query") (get_X opt "data")
        = Ret (sql, binds) ->
        through_expander w sql binds (events_since s (tx_arm w order m db "update" opt s).2))
  /\ (forall db opt sql binds,
        buildDelete (GetEnvString w) m opt = Ret (sql, binds) ->
        through_expander w sql binds (events_since s (tx_arm w order m db "delete" opt s).2))
  /\ (forall columns,
        exists sql,
          buildQuery (GetEnvString w) m (findall_query columns) = Ret (sql, [])
          /\ straight_to_driver sql [] (events_since s (FindAll w m columns s).2)).
Proof.
  intros Hreg. destruct s as [tr0 qm0 d0]. unfold through_expander, straight_to_driver.
  split; [|split; [|split; [|split; [|split; [|split; [|split]]]]]].
  - intros q D sql binds Hb. rewrite Update_run, Hb by done. cbv zeta. cbn [snd trace].
    rewrite <- !app_assoc, events_since_app.
    rewrite !filter_app, filter_write_log. destruct (sqlx_In w sql binds) as [[_sql args] e]; eexists; split; reflexivity.
  - intros q columns tr d sql binds Hb.
    rewrite Count_run by done. cbv zeta. rewrite Hb. cbn [snd].
    rewrite events_since_app. destruct (sqlx_In w sql binds) as [[_sql args] e]; eexists; split; reflexivity.
  - intros q tr d sql binds Hb.
    rewrite FindOne_run by done. cbv zeta. rewrite Hb. cbn [snd].
    rewrite events_since_app, filter_app, filter_read_log. destruct (sqlx_In w sql binds) as [[_sql args] e]; eexists; split; reflexivity.
  - intros q sql binds Hb. rewrite Find_run, Hb by done. cbv zeta. cbn [snd trace].
    rewrite events_since_app, filter_app, filter_read_log. destruct (sqlx_In w sql binds) as [[_sql args] e]; eexists; split; reflexivity.
  - intros q sql binds Hb. rewrite Delete_run, Hb by done. cbv zeta. cbn [snd trace].
    rewrite <- !app_assoc, events_since_app.
    rewrite !filter_app, filter_write_log. destruct (sqlx_In w sql binds) as [[_sql args] e]; eexists; split; reflexivity.
  - intros db opt sql binds Hq Hd Hb. rewrite tx_arm_update_run, Hb by done. cbv zeta.
    cbn [snd]. rewrite events_since_extend. destruct (sqlx_In w sql binds) as [[_sql args] e]; eexists; split; reflexivity.
  - intros db opt sql binds Hb. rewrite tx_arm_delete_run, Hb. cbv zeta.
    cbn [snd]. rewrite events_since_extend. destruct (sqlx_In w sql binds) as [[_sql args] e]; eexists; split; reflexivity.
  - intros columns. destruct (findall_query_built (GetEnvString w) m columns) as [sql Hb].
    exists sql. split; [done|]. rewrite FindAll_run, Hb by done. cbv zeta. cbn [snd trace].
    rewrite events_since_app, filter_app, filter_read_log. eexists. split; reflexivity.
Qed.

Lemma statements_go_through_expander_witness :
  through_expander sample_world "DELETE FROM user WHERE id IN (?)" [VSlice [VInt 1; VInt 2]]
    (events_since (init None 0)
       (Delete sample_world (mkMySQL "" "user")
          (<["where" := VString "id IN (?)"]> (<["binds" := VSlice [VSlice [VInt 1; VInt 2]]]> ∅))
          (init None 0)).2).
Proof.
  destruct (statements_go_through_expander sample_world stored_order (mkMySQL "" "user")
              (init None 0) (sample_registered "user")) as (_ & _ & _ & _ & H & _).
  apply H. vm_compute. reflexivity.
Defined.

(** * Further properties of the builders *)

Lemma range_empty (order : map_order) : range order ∅ = [].
Proof.
  apply Permutation_nil_r. rewrite (range_perm order ∅). by rewrite map_to_list_empty.
Qed.

(** ** Keys a builder does not read *)

(** X1. [buildDelete] and [buildUpdate] read the keys [table], [where] and
    [binds] of the condition map and no other: adding or changing any other
    entry ([limit], [order], [join], ...) changes neither the statement nor
    the binds, nor whether the builder panics. *)
Theorem delete_update_ignore_other_keys (cfg : string -> string -> string -> string)
    (order : map_order) (m : MySQL) (q D : X) (k : string) (v : value) :
  k <> "table" -> k <> "where" -> k <> "binds" ->
  buildDelete cfg m (<[k := v]> q) = buildDelete cfg m q
  /\ buildUpdate cfg order m (<[k := v]> q) D = buildUpdate cfg order m q D.
Proof.
  intros Ht Hw Hb. unfold buildDelete, buildUpdate.
  rewrite !lookup_insert_ne by done. done.
Qed.

Lemma delete_update_ignore_other_keys_witness :
  buildDelete (fun _ _ d => d) (mkMySQL "" "user")
    (<["limit" := VInt 1]> (<["where" := VString "age > ?"]> (<["binds" := VSlice [VInt 18]]> ∅)))
  = Ret ("DELETE FROM user WHERE age > ?", [VInt 18]).
Proof.
  refine (eq_trans (proj1 (delete_update_ignore_other_keys _ stored_order _ _ ∅ "limit" _
                             _ _ _)) _); try discriminate.
  vm_compute. reflexivity.
Defined.

(** ** Bound values and the text of the statement *)

(** X2. The values to bind never reach the text of the statement: the text
    of [buildInsert] is fixed by the columns in iteration order, that of
    [buildBatchInsert] by the columns and the number of rows, that of
    [buildUpdate] on data without Expression Literals by the columns and the
    condition map, and those of [buildQuery], [buildDelete] and [buildUpdate]
    do not change with the sequence under [binds]. *)
Theorem values_never_reach_the_text (cfg : string -> string -> string -> string)
    (order : map_order) (m : MySQL) :
  (forall D D' tables,
      (range order D).*1 = (range order D').*1 ->
      sql_of (buildInsert cfg order m D tables) = sql_of (buildInsert cfg order m D' tables))
  /\ (forall C R R' tables,
        length R = length R' ->
        sql_of (buildBatchInsert cfg m C R tables) = sql_of (buildBatchInsert cfg m C R' tables))
  /\ (forall q D D',
        (range order D).*1 = (range order D').*1 ->
        expr_free D = true -> expr_free D' = true ->
        sql_of (buildUpdate cfg order m q D) = sql_of (buildUpdate cfg order m q D'))
  /\ (forall q D b b',
        sql_of (buildUpdate cfg order m (<["binds" := VSlice b]> q) D)
        = sql_of (buildUpdate cfg order m (<["binds" := VSlice b']> q) D))
  /\ (forall q b b',
        sql_of (buildQuery cfg m (<["binds" := VSlice b]> q))
        = sql_of (buildQuery cfg m (<["binds" := VSlice b']> q)))
  /\ (forall q b b',
        sql_of (buildDelete cfg m (<["binds" := VSlice b]> q))
        = sql_of (buildDelete cfg m (<["binds" := VSlice b']> q))).
Proof.
  split; [|split; [|split; [|split; [|split]]]].
  - intros D D' tables Hk. rewrite !buildInsert_closed. simpl.
    rewrite Hk. f_equal. rewrite <- !(range_length order), <- !(length_fmap fst), Hk. done.
  - intros C R R' tables Hl. rewrite !buildBatchInsert_closed. simpl. by rewrite Hl.
  - intros q D D' Hk HD HD'. rewrite !buildUpdate_cases.
    assert (Hfree : forall D0, expr_free D0 = true ->
              nil_free D0 = true
              /\ map spec_set_clause (range order D0)
                 = map (fun kv : string * value => kv.1 +:+ " = ?") (range order D0)).
    { intros D0 H0. unfold expr_free, nil_free in *.
      rewrite <- (forallb_perm _ _ _ (range_perm order D0)) in H0.
      rewrite <- (forallb_perm _ _ _ (range_perm order D0)).
      induction (range order D0) as [|[k0 v0] l IH]; [done|].
      simpl in H0. apply andb_prop in H0 as [Hv Hl]. destruct (IH Hl) as [IH1 IH2].
      simpl. rewrite IH1, IH2. by destruct v0. }
    destruct (Hfree D HD) as [Hn Hc]. destruct (Hfree D' HD') as [Hn' Hc'].
    rewrite Hn, Hn'. unfold spec_update_clauses. rewrite Hc, Hc'.
    replace (map (fun kv : string * value => kv.1 +:+ " = ?") (range order D'))
      with (map (fun kv : string * value => kv.1 +:+ " = ?") (range order D)).
    + destruct (key_typed is_string q "table"); [|done].
      by destruct (key_typed is_string q "where" && key_typed is_slice q "binds").
    + rewrite <- !(map_map fst (fun k0 : string => k0 +:+ " = ?")).
      change (map fst) with (fmap (M:=list) (@fst string value)). by rewrite Hk.
  - intros q D b b'. unfold buildUpdate.
    rewrite !lookup_insert_eq, !lookup_insert_ne by done.
    destruct (q !! "table") as [[]|]; try reflexivity;
      simpl; destruct (foldlM _ _ _) as [[set binds]|]; try reflexivity;
      simpl; destruct (q !! "where") as [[]|]; reflexivity.
  - intros q b b'. rewrite !buildQuery_cases.
    unfold query_typed, key_typed, spec_query_clauses, spec_from, get_string, get_int,
      get_strings, get_slice.
    rewrite !lookup_insert_eq, !lookup_insert_ne by done. simpl.
    by destruct (_ && _).
  - intros q b b'. rewrite !buildDelete_cases.
    unfold cond_typed, key_typed, spec_delete_clauses, get_string, get_slice.
    rewrite !lookup_insert_eq, !lookup_insert_ne by done. simpl.
    by destruct (_ && _).
Qed.

(** ** Empty inputs *)

(** X3. An empty input is not rejected: without data [buildInsert] returns
    [INSERT INTO <prefix><table> () VALUES ()], without rows
    [buildBatchInsert] returns a statement that ends after [VALUES ], without
    columns every row gives the group [()], and no bind is produced; without
    data [buildUpdate] returns an empty SET list, followed by two spaces when
    a WHERE clause follows. *)
Theorem builders_on_empty_input (cfg : string -> string -> string -> string)
    (order : map_order) (m : MySQL) (tables : list string) :
  buildInsert cfg order m ∅ tables
  = Ret ("INSERT INTO " +:+ getPrefix cfg m +:+ hd (Table m) tables +:+ " () VALUES ()", [])
  /\ (forall C,
        buildBatchInsert cfg m C [] tables
        = Ret ("INSERT INTO " +:+ getPrefix cfg m +:+ hd (Table m) tables
               +:+ " (" +:+ String.concat "," C +:+ ") VALUES ", []))
  /\ (forall R,
        buildBatchInsert cfg m [] R tables
        = Ret ("INSERT INTO " +:+ getPrefix cfg m +:+ hd (Table m) tables
               +:+ " () VALUES " +:+ String.concat "," (replicate (length R) "()"), []))
  /\ buildUpdate cfg order m ∅ ∅
     = Ret (("UPDATE " +:+ getPrefix cfg m +:+ Table m) +:+ " SET ", [])
  /\ (forall w b,
        buildUpdate cfg order m (<["where" := VString w]> (<["binds" := VSlice b]> ∅)) ∅
        = Ret (("UPDATE " +:+ getPrefix cfg m +:+ Table m) +:+ " SET  WHERE " +:+ w, b)).
Proof.
  split; [|split; [|split; [|split]]].
  - rewrite buildInsert_closed, range_empty. reflexivity.
  - intros C. rewrite buildBatchInsert_closed. reflexivity.
  - intros R. etransitivity; [apply buildBatchInsert_closed|]. simpl.
    replace (concat (map (row_binds []) R)) with (@nil value); [done|].
    induction R as [|r R IH]; [done|]. simpl. by rewrite <- IH.
  - unfold buildUpdate. rewrite range_empty. reflexivity.
  - intros w b. unfold buildUpdate. rewrite range_empty. reflexivity.
Qed.

(** * Further properties of the executor methods *)

Lemma getDB_unregistered (w : world) (m : MySQL) (s : store) :
  handle m ∉ dbmap w ->
  getDB w m s = (Panic (unregistered_panic m), extend s [unregistered_log m]).
Proof.
  intros H. unfold getDB, handle in *.
  destruct (decide (DB m = "")); destruct (decide (_ ∈ dbmap w)); done.
Qed.

Lemma Insert_run (w : world) (order : map_order) (m : MySQL) (D : X) (s : store) :
  handle m ∈ dbmap w ->
  Insert w order m D s
  = let sql := "INSERT INTO " +:+ getPrefix (GetEnvString w) m +:+ Table m
               +:+ " (" +:+ String.concat "," (range order D).*1
               +:+ ") VALUES (" +:+ String.concat "," (replicate (size D) "?") +:+ ")" in
    let binds := (range order D).*2 in
    let r := db_Exec w (handle m) (trace s) sql binds in
    (Ret (id_or_error r),
     extend s ([EvExec sql binds r] ++ write_log "[MySQL] Insert Error: " r)).
Proof.
  intros Hreg. unfold Insert. rewrite M_bind_eq, getDB_registered by done.
  run_M. simpl. rewrite buildInsert_closed. simpl.
  destruct (db_Exec _ _ _ _ _) as [err|res]; simpl; unfold extend; simpl.
  - by rewrite <- ?app_assoc.
  - by destruct (LastInsertId res).
Qed.

Lemma BatchInsert_run (w : world) (m : MySQL) (C : list string) (R : list X) (s : store) :
  handle m ∈ dbmap w ->
  BatchInsert w m C R s
  = let sql := "INSERT INTO " +:+ getPrefix (GetEnvString w) m +:+ Table m
               +:+ " (" +:+ String.concat "," C +:+ ") VALUES "
               +:+ String.concat ","
                     (replicate (length R)
                        ("(" +:+ String.concat "," (replicate (length C) "?") +:+ ")")) in
    let binds := concat (map (row_binds C) R) in
    let r := db_Exec w (handle m) (trace s) sql binds in
    (Ret (rows_or_error r),
     extend s ([EvExec sql binds r] ++ write_log "[MySQL] BatchInsert Error: " r)).
Proof.
  intros Hreg. unfold BatchInsert. rewrite M_bind_eq, getDB_registered by done.
  run_M. simpl. rewrite buildBatchInsert_closed. simpl.
  destruct (db_Exec _ _ _ _ _) as [err|res]; simpl; unfold extend; simpl.
  - by rewrite <- ?app_assoc.
  - by destruct (RowsAffected res).
Qed.

(** ** A handle that is not registered *)

(** X4. When the handle of the receiver is not in the registry, every
    method panics with the message naming the receiver's [DB] field as
    written (empty for the default handle), after one [LogErrorf] line and
    before anything else: no statement is built, expanded or executed, no
    transaction is begun, and the caller's map and integer are untouched. *)
Theorem unregistered_handle_panics (w : world) (order : map_order)
    (orders : nat -> map_order) (m : MySQL) (s : store) :
  handle m ∉ dbmap w ->
  (forall D, Insert w order m D s = (Panic (unregistered_panic m), extend s [unregistered_log m]))
  /\ (forall C R,
        BatchInsert w m C R s = (Panic (unregistered_panic m), extend s [unregistered_log m]))
  /\ (forall q D,
        Update w order m q D s = (Panic (unregistered_panic m), extend s [unregistered_log m]))
  /\ (forall columns,
        Count w m columns s = (Panic (unregistered_panic m), extend s [unregistered_log m]))
  /\ FindOne w m s = (Panic (unregistered_panic m), extend s [unregistered_log m])
  /\ (forall q, Find w m q s = (Panic (unregistered_panic m), extend s [unregistered_log m]))
  /\ (forall columns,
        FindAll w m columns s = (Panic (unregistered_panic m), extend s [unregistered_log m]))
  /\ (forall q, Delete w m q s = (Panic (unregistered_panic m), extend s [unregistered_log m]))
  /\ (forall operations,
        DoTransactions w orders m operations s
        = (Panic (unregistered_panic m), extend s [unregistered_log m])).
Proof.
  intros H.
  repeat split; intros;
    unfold Insert, BatchInsert, Update, Count, FindOne, Find, FindAll, Delete, DoTransactions;
    by rewrite M_bind_eq, getDB_unregistered.
Qed.

Lemma unregistered_handle_panics_witness :
  Count sample_world (mkMySQL "replica" "user") ["id"] (init (Some ∅) 7)
  = (Panic (PanicMsg "mysql error: database replica is not initialized"),
     {| trace := [EvLogErrorf "[MySQL] Database Error: %s is not initialized" ["replica"]];
        query_map := Some ∅; count_dest := 7 |}).
Proof.
  assert (H : handle (mkMySQL "replica" "user") ∉ dbmap sample_world).
  { change ("replica" ∉ ({["db"]} : gset string)). apply not_elem_of_singleton. discriminate. }
  destruct (unregistered_handle_panics sample_world stored_order (fun _ => stored_order)
              (mkMySQL "replica" "user") (init (Some ∅) 7) H) as (_ & _ & _ & HC & _).
  exact (HC ["id"]).
Defined.

(** ** The default handle *)

Lemma tx_loop_empty_DB (w : world) (orders : nat -> map_order) (t db : string)
    (entries : list (string * value)) (i : nat) (s : store) :
  tx_loop w orders (mkMySQL "" t) db i entries s
  = tx_loop w orders (mkMySQL "db" t) db i entries s.
Proof.
  revert i s. induction entries as [|[key v] rest IH]; intros i s; [done|].
  cbn [tx_loop]. rewrite !M_bind_eq. destruct (lift (assert_X v) s) as [[opt|p] s1]; [|done].
  rewrite !M_bind_eq.
  change (tx_arm w (orders (S i)) (mkMySQL "" t) db key opt s1)
    with (tx_arm w (orders (S i)) (mkMySQL "db" t) db key opt s1).
  destruct (tx_arm _ _ _ _ _ _ _) as [[[e|]|p] s2]; [done| |done]. apply IH.
Qed.

(** X5. A receiver whose [DB] field is empty uses the handle and the table
    prefix of [db]: with [db] registered, every method behaves on it as on
    the receiver with [DB] set to [db] and the same table. *)
Theorem empty_DB_is_db (w : world) (order : map_order) (orders : nat -> map_order)
    (t : string) (s : store) :
  "db" ∈ dbmap w ->
  let m0 := mkMySQL "" t in
  let m1 := mkMySQL "db" t in
  (forall D, Insert w order m0 D s = Insert w order m1 D s)
  /\ (forall C R, BatchInsert w m0 C R s = BatchInsert w m1 C R s)
  /\ (forall q D, Update w order m0 q D s = Update w order m1 q D s)
  /\ (forall columns, Count w m0 columns s = Count w m1 columns s)
  /\ FindOne w m0 s = FindOne w m1 s
  /\ (forall q, Find w m0 q s = Find w m1 q s)
  /\ (forall columns, FindAll w m0 columns s = FindAll w m1 columns s)
  /\ (forall q, Delete w m0 q s = Delete w m1 q s)
  /\ (forall operations,
        DoTransactions w orders m0 operations s = DoTransactions w orders m1 operations s).
Proof.
  intros H m0 m1.
  assert (H0 : handle m0 ∈ dbmap w) by exact H.
  assert (H1 : handle m1 ∈ dbmap w) by exact H.
  repeat split; intros;
    unfold Insert, BatchInsert, Update, Count, FindOne, Find, FindAll, Delete, DoTransactions;
    rewrite !M_bind_eq, (getDB_registered w m0 s H0), (getDB_registered w m1 s H1);
    try reflexivity.
  change (handle m0) with (handle m1). rewrite !M_bind_eq.
  destruct (call_Begin w (handle m1) s) as [[[e|]|p] s1]; try reflexivity.
  rewrite !M_bind_eq. subst m0 m1. by rewrite tx_loop_empty_DB.
Qed.

Lemma empty_DB_is_db_witness :
  Find sample_world (mkMySQL "" "user") (<["limit" := VInt 3]> ∅) (init None 0)
  = Find sample_world (mkMySQL "db" "user") (<["limit" := VInt 3]> ∅) (init None 0).
Proof.
  destruct (empty_DB_is_db sample_world stored_order (fun _ => stored_order) "user"
              (init None 0) (sample_registered "user")) as (_ & _ & _ & _ & _ & H & _).
  exact (H _).
Defined.

(** ** What the write methods return and log *)

Lemma events_since_store (s : store) (evs : list event) (qm : option X) (d : Z) :
  events_since s {| trace := trace s ++ evs; query_map := qm; count_dest := d |} = evs.
Proof. unfold events_since. simpl. by rewrite drop_app_length. Qed.

(** X6. With a registered handle, [Insert] and [BatchInsert] on every
    input, and [Update] and [Delete] on inputs of the documented types, send
    one statement to the driver and return: on a failure [0] and the
    driver's error, with one [LogError] line; on success the number the
    result gives ([LastInsertId] for [Insert], [RowsAffected] for the others)
    and nil, with no log, and the error that accessor itself returns is
    dropped.  None of them writes to the caller's map or integer. *)
Theorem write_methods_report (w : world) (order : map_order) (m : MySQL) (s : store) :
  handle m ∈ dbmap w ->
  (forall D, write_report "[MySQL] Insert Error: " id_or_error s (Insert w order m D s))
  /\ (forall C R,
        write_report "[MySQL] BatchInsert Error: " rows_or_error s (BatchInsert w m C R s))
  /\ (forall q D, cond_typed q = true -> nil_free D = true ->
        write_report "[MySQL] Update Error: " rows_or_error s (Update w order m q D s))
  /\ (forall q, cond_typed q = true ->
        write_report "[MySQL] Delete Error: " rows_or_error s (Delete w m q s))
  /\ (forall e, id_or_error (inl e) = (0%Z, Some e) /\ rows_or_error (inl e) = (0%Z, Some e))
  /\ (forall id rows e1 e2,
        id_or_error (inr (mkResult (id, e1) (rows, e2))) = (id, None)
        /\ rows_or_error (inr (mkResult (id, e1) (rows, e2))) = (rows, None)).
Proof.
  intros Hreg. unfold write_report.
  split; [|split; [|split; [|split; [|split]]]].
  - intros D. rewrite Insert_run by done. cbv zeta. eexists. cbn [fst snd].
    rewrite events_since_extend. split; [reflexivity|].
    destruct (db_Exec _ _ _ _ _); by repeat split.
  - intros C R. rewrite BatchInsert_run by done. cbv zeta. eexists. cbn [fst snd].
    rewrite events_since_extend. split; [reflexivity|].
    destruct (db_Exec _ _ _ _ _); by repeat split.
  - intros q D Hq HD. rewrite Update_run by done. rewrite buildUpdate_cases.
    unfold cond_typed in Hq. apply andb_prop in Hq as [Hq Hb]. apply andb_prop in Hq as [Ht Hw].
    rewrite Ht, HD, Hw, Hb. cbv zeta. cbn [andb fst snd]. eexists.
    rewrite <- !app_assoc, events_since_store. split; [reflexivity|].
    destruct (db_Exec _ _ _ _ _); by repeat split.
  - intros q Hq. rewrite Delete_run by done. rewrite buildDelete_cases, Hq.
    cbv zeta. cbn [fst snd]. eexists.
    rewrite <- !app_assoc, events_since_store. split; [reflexivity|].
    destruct (db_Exec _ _ _ _ _); by repeat split.
  - done.
  - done.
Qed.

Lemma write_methods_report_witness :
  write_report "[MySQL] BatchInsert Error: " rows_or_error (init None 0)
    (BatchInsert sample_world (mkMySQL "" "user") ["name"] [] (init None 0)).
Proof.
  destruct (write_methods_report sample_world stored_order (mkMySQL "" "user") (init None 0)
              (sample_registered "user")) as (_ & H & _).
  exact (H ["name"] []).
Defined.

(** ** Inserts and the expander *)

(** X7. [Insert], [BatchInsert] and the [insert] and [batchInsert] arms of
    [DoTransactions] hand the pair their builder returns to the driver as it
    is: the expander is not called. *)
Theorem inserts_go_straight_to_driver (w : world) (order : map_order) (m : MySQL)
    (s : store) :
  handle m ∈ dbmap w ->
  (forall D sql binds,
      buildInsert (GetEnvString w) order m D [] = Ret (sql, binds) ->
      straight_to_driver sql binds (events_since s (Insert w order m D s).2))
  /\ (forall C R sql binds,
        buildBatchInsert (GetEnvString w) m C R [] = Ret (sql, binds) ->
        straight_to_driver sql binds (events_since s (BatchInsert w m C R s).2))
  /\ (forall db opt sql binds,
        key_typed is_string opt "table" = true -> key_typed is_X opt "data" = true ->
        buildInsert (GetEnvString w) order m (get_X opt "data") (get_table opt)
        = Ret (sql, binds) ->
        straight_to_driver sql binds (events_since s (tx_arm w order m db "insert" opt s).2))
  /\ (forall db opt sql binds,
        key_typed is_string opt "table" = true -> key_typed is_strings opt "columns" = true ->
        key_typed is_Xs opt "data" = true ->
        buildBatchInsert (GetEnvString w) m (default [] (get_strings opt "columns"))
          (get_Xs opt "data") (get_table opt) = Ret (sql, binds) ->
        straight_to_driver sql binds
          (events_since s (tx_arm w order m db "batchInsert" opt s).2)).
Proof.
  intros Hreg. unfold straight_to_driver.
  split; [|split; [|split]].
  - intros D sql binds Hb. rewrite buildInsert_closed in Hb. inversion Hb; subst.
    rewrite Insert_run by done. cbv zeta. cbn [snd]. rewrite events_since_extend.
    rewrite filter_app, filter_write_log. eexists. split; reflexivity.
  - intros C R sql binds Hb. rewrite buildBatchInsert_closed in Hb. inversion Hb; subst.
    rewrite BatchInsert_run by done. cbv zeta. cbn [snd]. rewrite events_since_extend.
    rewrite filter_app, filter_write_log. eexists. split; reflexivity.
  - intros db opt sql binds Ht Hd Hb. rewrite tx_arm_insert_run, Hb by done.
    cbv zeta. cbn [snd]. rewrite events_since_extend. eexists. split; reflexivity.
  - intros db opt sql binds Ht Hc Hd Hb. rewrite tx_arm_batchInsert_run, Hb by done.
    cbv zeta. cbn [snd]. rewrite events_since_extend. eexists. split; reflexivity.
Qed.

Lemma inserts_go_straight_to_driver_witness :
  straight_to_driver "INSERT INTO user (age,name) VALUES (?,?)"
    [VInt 30; VSlice [VInt 1; VInt 2]]
    (events_since (init None 0)
       (Insert sample_world stored_order (mkMySQL "" "user")
          (<["name" := VSlice [VInt 1; VInt 2]]> (<["age" := VInt 30]> ∅)) (init None 0)).2).
Proof.
  destruct (inserts_go_straight_to_driver sample_world stored_order (mkMySQL "" "user")
              (init None 0) (sample_registered "user")) as (H & _).
  apply H. vm_compute. reflexivity.
Defined.

(** ** What the read methods return and log *)

Lemma query_typed_limit (q : X) (n : Z) :
  query_typed q = true -> query_typed (<["limit" := VInt n]> q) = true.
Proof.
  unfold query_typed, key_typed.
  rewrite lookup_insert_eq, !lookup_insert_ne by done. simpl.
  intros H. repeat (apply andb_prop in H as [H ?]).
  repeat (apply andb_true_intro; split); done.
Qed.

Lemma findall_query_typed (columns : list string) : query_typed (findall_query columns) = true.
Proof. unfold findall_query. destruct (decide _); vm_compute; reflexivity. Qed.

(** X8. With a registered handle, [Find], [FindAll] and [FindOne] return
    the error of the driver as it is and log it with one [LogError] line,
    except that an error whose message is "sql: no rows in result set" is
    returned without a log; [Count] never calls [LogError], whatever the
    driver replies and whatever the store. *)
Theorem read_methods_report (w : world) (m : MySQL) (s : store) :
  handle m ∈ dbmap w ->
  (forall q, query_typed q = true -> read_report "[MySQL] Find Error: " s (Find w m q s))
  /\ (forall columns, read_report "[MySQL] FindAll Error: " s (FindAll w m columns s))
  /\ (forall q,
        query_typed (<["limit" := VInt 1]> q) = true ->
        let s0 := {| trace := trace s; query_map := Some q; count_dest := count_dest s |} in
        read_report "[MySQL] FindOne Error: " s0 (FindOne w m s0))
  /\ (forall columns, filter is_LogError (events_since s (Count w m columns s).2) = [])
  /\ (forall tag e, Error e = "sql: no rows in result set" -> read_log tag (Some e) = [])
  /\ (forall tag e, Error e <> "sql: no rows in result set" ->
        read_log tag (Some e) = [EvLogError [tag; Error e]])
  /\ (forall tag, read_log tag None = []).
Proof.
  intros Hreg. unfold read_report.
  split; [|split; [|split; [|split; [|split; [|split]]]]].
  - intros q Hq. rewrite Find_run, buildQuery_cases, Hq by done. cbv zeta. cbn [fst snd].
    eexists. rewrite events_since_store. split; [reflexivity|].
    unfold read_log.
    destruct (db_Select _ _ _ _ _); [destruct (decide _)|]; split; reflexivity.
  - intros columns. rewrite FindAll_run, buildQuery_cases, findall_query_typed by done.
    cbv zeta. cbn [fst snd]. eexists. rewrite events_since_store. split; [reflexivity|].
    unfold read_log.
    destruct (db_Select _ _ _ _ _); [destruct (decide _)|]; split; reflexivity.
  - intros q Hq. cbv zeta. rewrite FindOne_run by done. cbv zeta.
    rewrite buildQuery_cases, Hq. cbn [fst snd]. eexists.
    rewrite events_since_app. split; [reflexivity|].
    unfold read_log.
    destruct (db_Get _ _ _ _ _); [destruct (decide _)|]; split; reflexivity.
  - intros columns. destruct s as [tr [q|] d].
    + rewrite Count_run by done. cbv zeta.
      destruct (buildQuery _ _ _) as [[sql binds]|p]; cbn [snd].
      * by rewrite events_since_app.
      * unfold events_since. simpl. by rewrite drop_all.
    + unfold Count. rewrite M_bind_eq, getDB_registered by done.
      destruct columns; unfold events_since; simpl; by rewrite drop_all.
  - intros tag e He. unfold read_log. destruct (decide _); done.
  - intros tag e He. unfold read_log. destruct (decide _); done.
  - done.
Qed.

Lemma read_methods_report_witness :
  read_report "[MySQL] FindOne Error: " (init (Some ∅) 0)
    (FindOne sample_world (mkMySQL "" "user") (init (Some ∅) 0)).
Proof.
  destruct (read_methods_report sample_world (mkMySQL "" "user") (init None 0)
              (sample_registered "user")) as (_ & _ & H & _).
  apply (H ∅). vm_compute. reflexivity.
Defined.

(** ** FindAll *)

(** X9. With a registered handle [FindAll] never panics: it runs
    [SELECT <columns joined by commas> FROM <prefix><table>], with [*] when
    no column is given, with no binds, and returns the reply of the
    driver. *)
Theorem FindAll_statement (w : world) (m : MySQL) (columns : list string) (s : store) :
  handle m ∈ dbmap w ->
  let select := match columns with [] => "*" | _ => String.concat "," columns end in
  let sql := String.concat " " ["SELECT " +:+ select;
                                "FROM " +:+ getPrefix (GetEnvString w) m +:+ Table m] in
  let err := db_Select w (handle m) (trace s) sql [] in
  FindAll w m columns s
  = (Ret err, extend s ([EvSelect sql [] err] ++ read_log "[MySQL] FindAll Error: " err)).
Proof.
  intros Hreg select sql err. rewrite FindAll_run by done.
  assert (Hb : buildQuery (GetEnvString w) m (findall_query columns) = Ret (sql, [])).
  { subst sql select. unfold findall_query. destruct columns as [|c columns]; simpl.
    - reflexivity.
    - vm_compute. reflexivity. }
  rewrite Hb. reflexivity.
Qed.

Lemma FindAll_statement_witness :
  FindAll sample_world (mkMySQL "" "user") ["id"; "name"] (init None 0)
  = (Ret None,
     {| trace := [EvSelect "SELECT id,name FROM user" [] None];
        query_map := None; count_dest := 0 |}).
Proof.
  refine (eq_trans (FindAll_statement sample_world (mkMySQL "" "user") ["id"; "name"]
                      (init None 0) (sample_registered "user")) _).
  vm_compute. reflexivity.
Defined.

(** ** One map used for several calls *)

(** X10. What [Count] and [FindOne] write stays in the caller's map: after
    [Count] and then [FindOne] on the same map [q], the map is [q] with
    [select] set to the count and [limit] set to [1], and the statement of
    [FindOne] selects the count; a second [Count] or [FindOne] leaves the
    map as the first did. *)
Theorem Count_then_FindOne (w : world) (m : MySQL) (q : X) (columns : list string)
    (tr : list event) (d : Z) :
  handle m ∈ dbmap w ->
  query_typed (<["select" := count_select columns]> q) = true ->
  let s0 := {| trace := tr; query_map := Some q; count_dest := d |} in
  let qc := <["select" := count_select columns]> q in
  let q2 := <["limit" := VInt 1]> qc in
  let s1 := (Count w m columns s0).2 in
  let s2 := (FindOne w m s1).2 in
  query_map s1 = Some qc
  /\ query_map s2 = Some q2
  /\ (exists rest,
        events_since s1 s2
        = EvIn (String.concat " " (spec_query_clauses (GetEnvString w) m q2))
               (default [] (get_slice q "binds")) :: rest)
  /\ get_string q2 "select" = get_string qc "select"
  /\ query_map (Count w m columns s1).2 = Some qc
  /\ query_map (FindOne w m s2).2 = Some q2.
Proof.
  intros Hreg Hq s0 qc q2 s1 s2.
  assert (Hs1 : exists tr1 d1, s1 = {| trace := tr1; query_map := Some qc; count_dest := d1 |}).
  { subst s1 s0. rewrite Count_run by done. cbv zeta. fold qc.
    rewrite buildQuery_cases. fold qc in Hq. rewrite Hq. cbn [snd]. eauto. }
  destruct Hs1 as (tr1 & d1 & Hs1).
  assert (Hq2 : query_typed q2 = true) by (by apply query_typed_limit).
  assert (Hs2 : exists rest,
            s2 = {| trace := tr1 ++ EvIn (String.concat " "
                                           (spec_query_clauses (GetEnvString w) m q2))
                                         (default [] (get_slice q2 "binds")) :: rest;
                    query_map := Some q2; count_dest := d1 |}).
  { subst s2. rewrite Hs1, FindOne_run by done. cbv zeta. fold q2.
    rewrite buildQuery_cases, Hq2. simpl. eauto. }
  destruct Hs2 as (rest & Hs2).
  assert (Hbinds : get_slice q2 "binds" = get_slice q "binds").
  { unfold get_slice, q2, qc. by rewrite !lookup_insert_ne. }
  split; [by rewrite Hs1|]. split; [by rewrite Hs2|]. split.
  { rewrite Hs2, Hs1, events_since_app, Hbinds. simpl. eauto. }
  split.
  { unfold get_string, q2. by rewrite lookup_insert_ne. }
  split.
  - rewrite Hs1, Count_run by done. cbv zeta.
    replace (<["select" := count_select columns]> qc) with qc
      by (unfold qc; by rewrite insert_insert_eq).
    by destruct (buildQuery _ m qc) as [[sql binds]|p].
  - rewrite Hs2, FindOne_run by done. cbv zeta.
    replace (<["limit" := VInt 1]> q2) with q2
      by (unfold q2; by rewrite insert_insert_eq).
    by destruct (buildQuery _ m q2) as [[sql binds]|p].
Qed.

Lemma Count_then_FindOne_witness :
  query_map (FindOne sample_world (mkMySQL "" "user")
               (Count sample_world (mkMySQL "" "user") []
                  (init (Some (<["where" := VString "age > 18"]> ∅)) 0)).2).2
  = Some (<["limit" := VInt 1]> (<["select" := VString "COUNT(*)"]>
            (<["where" := VString "age > 18"]> ∅))).
Proof.
  assert (Hq : query_typed (<["select" := count_select []]> (<["where" := VString "age > 18"]> ∅))
               = true) by (vm_compute; reflexivity).
  pose proof (Count_then_FindOne sample_world (mkMySQL "" "user")
                (<["where" := VString "age > 18"]> ∅) [] [] 0
                (sample_registered "user") Hq) as H.
  cbv zeta in H. destruct H as (_ & H & _). exact H.
Defined.

(** * Further properties of the transaction coordinator *)

Ltac arm_lookup opt k asrt :=
  let v := fresh "v" in
  destruct (opt !! k) as [v|]; cbv beta iota; [destruct (asrt v)|].

Ltac arm_done s :=
  unfold extend; simpl; rewrite <- ?app_assoc;
  first [ eexists _, []; split;
          [destruct s; simpl; rewrite ?app_nil_r; reflexivity | split; [reflexivity | simpl; lia]]
        | eexists _, _; split; [reflexivity | split; [reflexivity | simpl; lia]] ].

(** Whatever the entry, an arm only prints, expands and executes, and it
    executes at most one statement, none for a tag it does not know. *)
Lemma tx_arm_any (w : world) (order : map_order) (m : MySQL) (db key : string)
    (opt : X) (s : store) :
  exists r evs,
    tx_arm w order m db key opt s = (r, extend s evs)
    /\ forallb in_transaction evs = true
    /\ length (filter is_TxExec evs) <= (if known_tag key then 1 else 0).
Proof.
  destruct (known_tag key) eqn:Hk.
  2:{ exists (Ret None), []. rewrite tx_arm_other, extend_nil by done. by repeat split. }
  clear Hk. unfold tx_arm.
  destruct (decide (key = "insert")) as [_|_].
  { arm_lookup opt "table" assert_string; arm_lookup opt "data" assert_X;
      run_M; simpl; try destruct (buildInsert _ _ _ _ _) as [[sql binds]|p];
      arm_done s. }
  destruct (decide (key = "batchInsert")) as [_|_].
  { arm_lookup opt "table" assert_string; arm_lookup opt "columns" assert_strings;
      arm_lookup opt "data" assert_Xs;
      run_M; simpl; try destruct (buildBatchInsert _ _ _ _ _) as [[sql binds]|p];
      arm_done s. }
  destruct (decide (key = "update")) as [_|_].
  { arm_lookup opt "query" assert_X; arm_lookup opt "data" assert_X;
      run_M; simpl; try destruct (buildUpdate _ _ _ _ _) as [[sql binds]|p]; simpl;
      try destruct (sqlx_In w sql binds) as [[_sql args] e];
      arm_done s. }
  destruct (decide (key = "delete")) as [_|_].
  { run_M; simpl; destruct (buildDelete _ _ _) as [[sql binds]|p]; simpl;
      try destruct (sqlx_In w sql binds) as [[_sql args] e];
      arm_done s. }
  exists (Ret None), []. rewrite extend_nil. by repeat split; simpl; try lia.
Qed.

Lemma tx_loop_any (w : world) (orders : nat -> map_order) (m : MySQL) (db : string)
    (entries : list (string * value)) (i : nat) (s : store) :
  exists r body,
    tx_loop w orders m db i entries s = (r, extend s body)
    /\ forallb in_transaction body = true
    /\ length (filter is_TxExec body)
       <= length (filter (fun kv : string * value => known_tag kv.1) entries).
Proof.
  revert i s. induction entries as [|[key v] rest IH]; intros i s.
  - exists (Ret None), []. simpl. rewrite extend_nil. by repeat split.
  - cbn [tx_loop]. rewrite M_bind_eq. unfold lift at 1.
    destruct (assert_X v) as [opt|p].
    2:{ exists (Panic p), []. rewrite extend_nil. repeat split; simpl; lia. }
    rewrite M_bind_eq.
    destruct (tx_arm_any w (orders (S i)) m db key opt s) as (r & evs & Harm & Hin & Hn).
    rewrite Harm. rewrite filter_cons. cbn [fst].
    destruct r as [[e|]|p].
    + exists (Ret (Some e)), evs. split; [reflexivity|]. split; [done|].
      destruct (known_tag key); simpl in *; lia.
    + destruct (IH (S i) (extend s evs)) as (r & body & Hloop & Hin' & Hn').
      exists r, (evs ++ body). rewrite Hloop, extend_extend. split; [reflexivity|].
      split; [by rewrite forallb_app, Hin, Hin'|].
      rewrite filter_app, length_app.
      destruct (known_tag key); simpl in *; lia.
    + exists (Panic p), evs. split; [reflexivity|]. split; [done|].
      destruct (known_tag key); simpl in *; lia.
Qed.

Lemma known_entries_le_4 (operations : X) :
  length (filter (fun kv : string * value => known_tag kv.1) (map_to_list operations)) <= 4.
Proof.
  set (l := filter _ _).
  assert (Hnd : NoDup l.*1).
  { apply NoDup_fmap_fst.
    - intros k v1 v2 H1 H2. apply list_elem_of_filter in H1 as [_ H1], H2 as [_ H2].
      apply elem_of_map_to_list in H1, H2. congruence.
    - apply NoDup_filter, NoDup_map_to_list. }
  assert (Hsub : l.*1 ⊆ ["insert"; "batchInsert"; "update"; "delete"]).
  { intros k Hk. apply list_elem_of_fmap in Hk as ([k' v] & -> & Hin).
    apply list_elem_of_filter in Hin as [Hkn _]. simpl in *. unfold known_tag in Hkn.
    repeat (apply orb_prop_elim in Hkn as [Hkn|Hkn]);
      apply bool_decide_unpack in Hkn; subst; set_solver. }
  rewrite <- (length_fmap fst l).
  apply (submseteq_length _ ["insert"; "batchInsert"; "update"; "delete"]).
  by apply NoDup_submseteq.
Qed.

Lemma in_transaction_no_boundary (body : list event) :
  forallb in_transaction body = true ->
  filter is_Begin body = [] /\ filter is_Commit body = [] /\ filter is_Rollback body = [].
Proof.
  induction body as [|e body IH]; [done|]. simpl. intros H.
  apply andb_prop in H as [He Hb]. destruct (IH Hb) as (IH1 & IH2 & IH3).
  rewrite !filter_cons, IH1, IH2, IH3. by destruct e.
Qed.

(** What [DoTransactions] adds to the trace after a successful [Begin], for
    the outcome [r] of the loop and its events [body]. *)
Lemma DoTransactions_run (w : world) (orders : nat -> map_order) (m : MySQL)
    (operations : X) (s : store) :
  handle m ∈ dbmap w ->
  db_Begin w (handle m) (trace s) = None ->
  exists r body,
    tx_loop w orders m (handle m) 0 (range (orders 0) operations) (extend s [EvBegin None])
    = (r, extend s ([EvBegin None] ++ body))
    /\ forallb in_transaction body = true
    /\ length (filter is_TxExec body)
       <= length (filter (fun kv : string * value => known_tag kv.1) (map_to_list operations))
    /\ DoTransactions w orders m operations s
       = match r with
         | Panic p => (Panic p, extend s ([EvBegin None] ++ body))
         | Ret (Some e) =>
             (Ret (Some e),
              extend s ([EvBegin None] ++ body
                        ++ [EvRollback (tx_Rollback w (handle m)
                                          (trace s ++ [EvBegin None] ++ body));
                            EvLogError ["[MySQL] DoTransactions Error: "; Error e]]))
         | Ret None =>
             (Ret None,
              extend s ([EvBegin None] ++ body
                        ++ [EvCommit (tx_Commit w (handle m)
                                        (trace s ++ [EvBegin None] ++ body))]))
         end.
Proof.
  intros Hreg Hbegin.
  destruct (tx_loop_any w orders m (handle m) (range (orders 0) operations) 0
              (extend s [EvBegin None])) as (r & body & Hloop & Hin & Hn).
  exists r, body. rewrite Hloop, extend_extend. split; [done|]. split; [done|]. split.
  { etransitivity; [exact Hn|]. apply Nat.eq_le_incl, Permutation_length.
    by rewrite (range_perm (orders 0) operations). }
  unfold DoTransactions. rewrite M_bind_eq, getDB_registered by done.
  rewrite M_bind_eq. unfold call_Begin at 1. run_M. cbn [trace]. rewrite Hbegin.
  change {| trace := trace s ++ [EvBegin None]; query_map := query_map s;
            count_dest := count_dest s |} with (extend s [EvBegin None]).
  rewrite Hloop, extend_extend. destruct r as [[e|]|p]; [| |done].
  - unfold extend. simpl. by rewrite <- !app_assoc.
  - unfold extend. simpl. by rewrite <- !app_assoc.
Qed.

(** ** A transaction is closed exactly when the call returns *)

(** X11. With a registered handle and whatever the batch, [DoTransactions]
    calls [Begin] once and never both [Commit] and [Rollback]: it commits
    once and does not roll back when it returns nil; it rolls back once and
    does not commit when it returns an error after a successful [Begin]; it
    does neither when [Begin] failed; and when it panics, which it only does
    after a successful [Begin], the transaction is neither committed nor
    rolled back. *)
Theorem DoTransactions_closes_iff_returns (w : world) (orders : nat -> map_order)
    (m : MySQL) (operations : X) (s : store) :
  handle m ∈ dbmap w ->
  let run := DoTransactions w orders m operations s in
  let evs := events_since s run.2 in
  let begun := match db_Begin w (handle m) (trace s) with None => true | Some _ => false end in
  length (filter is_Begin evs) = 1
  /\ match run.1 with
     | Ret None =>
         begun = true /\ length (filter is_Commit evs) = 1 /\ filter is_Rollback evs = []
     | Ret (Some e) =>
         filter is_Commit evs = []
         /\ length (filter is_Rollback evs) = (if begun then 1 else 0)
     | Panic _ =>
         begun = true /\ filter is_Commit evs = [] /\ filter is_Rollback evs = []
     end.
Proof.
  intros Hreg run evs begun. subst run evs begun.
  destruct (db_Begin w (handle m) (trace s)) as [e|] eqn:Hbegin.
  - unfold DoTransactions. rewrite M_bind_eq, getDB_registered by done.
    rewrite M_bind_eq. unfold call_Begin at 1. run_M. cbn [trace]. rewrite Hbegin.
    simpl. rewrite <- app_assoc, events_since_store. done.
  - destruct (DoTransactions_run w orders m operations s Hreg Hbegin)
      as (r & body & _ & Hin & _ & Hrun).
    destruct (in_transaction_no_boundary body Hin) as (Hb & Hc & Hr).
    rewrite Hrun. destruct r as [[e|]|p]; cbn [fst snd];
      rewrite events_since_extend, !filter_app, Hb, Hc, Hr; done.
Qed.

Lemma DoTransactions_closes_iff_returns_witness :
  let run := DoTransactions sample_world (fun _ => stored_order) (mkMySQL "" "stock")
               (<["insert" := VMap (<["data" := VMap (<["id" := VInt 7]> ∅)]> ∅)]>
                  (<["delete" := VMap (<["where" := VInt 7]> ∅)]> ∅))
               (init None 0) in
  run.1 = Panic PanicTypeAssertion
  /\ filter is_TxExec (trace run.2)
     = [EvTxExec "INSERT INTO stock (id) VALUES (?)" [VInt 7] None]
  /\ filter is_Commit (events_since (init None 0) run.2) = []
  /\ filter is_Rollback (events_since (init None 0) run.2) = [].
Proof.
  pose proof (DoTransactions_closes_iff_returns sample_world (fun _ => stored_order)
                (mkMySQL "" "stock")
                (<["insert" := VMap (<["data" := VMap (<["id" := VInt 7]> ∅)]> ∅)]>
                   (<["delete" := VMap (<["where" := VInt 7]> ∅)]> ∅))
                (init None 0) (sample_registered "stock")) as H.
  cbv zeta in H |- *. destruct H as [_ H].
  assert (Hrun : (DoTransactions sample_world (fun _ => stored_order) (mkMySQL "" "stock")
               (<["insert" := VMap (<["data" := VMap (<["id" := VInt 7]> ∅)]> ∅)]>
                  (<["delete" := VMap (<["where" := VInt 7]> ∅)]> ∅))
               (init None 0)).1 = Panic PanicTypeAssertion) by (vm_compute; reflexivity).
  rewrite Hrun in H. destruct H as (_ & Hc & Hr).
  split; [exact Hrun|]. split; [vm_compute; reflexivity|]. split; [exact Hc | exact Hr].
Defined.

(** ** How many statements a transaction can execute *)

(** X12. Whatever the batch, [DoTransactions] executes at most one
    statement for each entry whose tag is [insert], [batchInsert], [update]
    or [delete], hence at most four statements in one transaction. *)
Theorem DoTransactions_at_most_four (w : world) (orders : nat -> map_order) (m : MySQL)
    (operations : X) (s : store) :
  let evs := events_since s (DoTransactions w orders m operations s).2 in
  length (filter is_TxExec evs)
  <= length (filter (fun kv : string * value => known_tag kv.1) (map_to_list operations))
  /\ length (filter is_TxExec evs) <= 4.
Proof.
  intros evs.
  assert (H : length (filter is_TxExec evs)
              <= length (filter (fun kv : string * value => known_tag kv.1)
                           (map_to_list operations))).
  { subst evs. destruct (decide (handle m ∈ dbmap w)) as [Hreg|Hreg].
    - destruct (db_Begin w (handle m) (trace s)) as [e|] eqn:Hbegin.
      + unfold DoTransactions. rewrite M_bind_eq, getDB_registered by done.
        rewrite M_bind_eq. unfold call_Begin at 1. run_M. cbn [trace]. rewrite Hbegin.
        simpl. rewrite <- app_assoc, events_since_store. simpl. lia.
      + destruct (DoTransactions_run w orders m operations s Hreg Hbegin)
          as (r & body & _ & _ & Hn & Hrun).
        rewrite Hrun. destruct r as [[e|]|p]; cbn [snd];
          rewrite events_since_extend, !filter_app, !length_app; simpl; lia.
    - unfold DoTransactions. rewrite M_bind_eq, getDB_unregistered by done.
      cbn [snd]. rewrite events_since_extend. simpl. lia. }
  split; [exact H|]. etransitivity; [exact H|]. apply known_entries_le_4.
Qed.

(** ** The keys an arm reads *)

(** X13. Each arm of [DoTransactions] reads fixed keys of its entry and no
    other: [insert] reads [table] and [data], [batchInsert] reads [table],
    [columns] and [data], [update] reads [query] and [data].  In particular a
    [where], [binds] or [table] put directly in an [update] entry, where a
    [delete] entry has them, changes nothing: they count only inside
    [query]. *)
Theorem arms_ignore_other_keys (w : world) (order : map_order) (m : MySQL) (db : string)
    (opt : X) (k : string) (v : value) (s : store) :
  k <> "data" ->
  (k <> "table" ->
   tx_arm w order m db "insert" (<[k := v]> opt) s = tx_arm w order m db "insert" opt s)
  /\ (k <> "table" -> k <> "columns" ->
      tx_arm w order m db "batchInsert" (<[k := v]> opt) s
      = tx_arm w order m db "batchInsert" opt s)
  /\ (k <> "query" ->
      tx_arm w order m db "update" (<[k := v]> opt) s = tx_arm w order m db "update" opt s).
Proof.
  intros Hd. unfold tx_arm.
  split; [|split]; intros; repeat (destruct (decide _) as [?|?]; try done);
    by rewrite !lookup_insert_ne by done.
Qed.

Lemma arms_ignore_other_keys_witness :
  tx_arm sample_world stored_order (mkMySQL "" "stock") "db" "update"
    (<["where" := VString "id = 7"]> (<["data" := VMap (<["qty" := VInt 0]> ∅)]> ∅))
    (init None 0)
  = (Ret None,
     {| trace := [EvPrintln [VString "执行更新"];
                  EvPrintln [VString "[sql]"; VString "UPDATE stock SET qty = ?"];
                  EvPrintln [VString "[binds]"; VSlice [VInt 0]];
                  EvIn "UPDATE stock SET qty = ?" [VInt 0];
                  EvTxExec "UPDATE stock SET qty = ?" [VInt 0] None];
        query_map := None; count_dest := 0 |}).
Proof.
  assert (Hd : "where" <> "data") by discriminate.
  assert (Hq : "where" <> "query") by discriminate.
  destruct (arms_ignore_other_keys sample_world stored_order (mkMySQL "" "stock") "db"
              (<["data" := VMap (<["qty" := VInt 0]> ∅)]> ∅) "where" (VString "id = 7")
              (init None 0) Hd) as (_ & _ & H).
  rewrite (H Hq). vm_compute. reflexivity.
Defined.

(** * The error of the expander *)

(** X14. The error [sqlx.In] returns is discarded: [Update], [Count],
    [FindOne], [Find] and [Delete] call the driver with the statement and the
    arguments the expander returned, whether it reported an error or not, and
    what they return, log and write is what they would with an expander that
    returns the same pair and no error. *)
Theorem expander_error_is_dropped (w : world) (order : map_order) (m : MySQL) (s : store) :
  (forall q D, Update (drop_In_error w) order m q D s = Update w order m q D s)
  /\ (forall columns, Count (drop_In_error w) m columns s = Count w m columns s)
  /\ FindOne (drop_In_error w) m s = FindOne w m s
  /\ (forall q, Find (drop_In_error w) m q s = Find w m q s)
  /\ (forall q, Delete (drop_In_error w) m q s = Delete w m q s).
Proof.
  destruct (decide (handle m ∈ dbmap w)) as [Hreg|Hreg].
  - assert (Hreg' : handle m ∈ dbmap (drop_In_error w)) by exact Hreg.
    split; [|split; [|split; [|split]]].
    + intros q D. by rewrite !Update_run.
    + intros columns. destruct s as [tr [q|] d].
      * by rewrite !Count_run.
      * unfold Count. rewrite !M_bind_eq, !getDB_registered by done. by destruct columns.
    + destruct s as [tr [q|] d].
      * by rewrite !FindOne_run.
      * unfold FindOne. by rewrite !M_bind_eq, !getDB_registered.
    + intros q. by rewrite !Find_run.
    + intros q. by rewrite !Delete_run.
  - assert (Hreg' : handle m ∉ dbmap (drop_In_error w)) by exact Hreg.
    repeat split; intros; unfold Update, Count, FindOne, Find, Delete;
      by rewrite !M_bind_eq, !getDB_unregistered.
Qed.

(** * InitDB *)

Section InitProperties.

Variable conn : Type.
Variable EnvString : string -> string -> string -> string.
Variable GetEnvInt : string -> string -> Z -> Z.
Variable sqlx_Open : list (init_event conn) -> string -> string -> error + conn.
Variable db_Ping : list (init_event conn) -> conn -> option error.

Lemma rounds_events_app (r1 r2 : init_rounds conn) :
  rounds_events EnvString GetEnvInt (r1 ++ r2)
  = rounds_events EnvString GetEnvInt r1 ++ rounds_events EnvString GetEnvInt r2.
Proof. unfold rounds_events. by rewrite map_app, concat_app. Qed.

Lemma InitDB_loop_rounds (dbnames : list string) (done : init_rounds conn)
    (tr0 : list (init_event conn)) :
  exists rounds tail,
    let out := InitDB_loop conn EnvString GetEnvInt sqlx_Open db_Ping dbnames
                 {| registry := rounds_registry done;
                    init_trace := tr0 ++ rounds_events EnvString GetEnvInt done |} in
    out.2 = {| registry := rounds_registry (done ++ rounds);
               init_trace := tr0 ++ rounds_events EnvString GetEnvInt (done ++ rounds)
                             ++ tail |}
    /\ match out.1 with
       | Ret _ => rounds.*1.*1 = dbnames /\ tail = []
       | Panic p =>
           exists v rest e,
             dbnames = rounds.*1.*1 ++ v :: rest
             /\ p = PanicMsg (Error e)
             /\ tail = [IvOpen "mysql" (init_dsn EnvString GetEnvInt v) (inl e);
                        IvLogError ["[MySQL] Connect Error: "; Error e]]
       end.
Proof.
  revert done. induction dbnames as [|v rest IH]; intros done.
  - exists [], []. simpl. rewrite !app_nil_r. done.
  - cbn [InitDB_loop]. cbn [init_trace registry].
    destruct (sqlx_Open _ "mysql" _) as [e|db] eqn:Hopen.
    + exists [], [IvOpen "mysql" (init_dsn EnvString GetEnvInt v) (inl e);
                  IvLogError ["[MySQL] Connect Error: "; Error e]].
      simpl. rewrite !app_nil_r, <- app_assoc. split; [done|]. by exists v, rest, e.
    + set (tr1 := (tr0 ++ rounds_events EnvString GetEnvInt done) ++ _).
      set (ping := db_Ping tr1 db).
      destruct (IH (done ++ [(v, db, ping)])) as (rounds & tail & Hout & Hres).
      exists ((v, db, ping) :: rounds), tail.
      assert (Hst : {| registry := <[v := db]> (rounds_registry done);
                       init_trace := match ping with
                                     | Some _ => (tr1 ++ [IvPing db ping]) ++ [IvClose db]
                                     | None => tr1 ++ [IvPing db ping]
                                     end |}
                    = {| registry := rounds_registry (done ++ [(v, db, ping)]);
                         init_trace := tr0 ++ rounds_events EnvString GetEnvInt
                                                (done ++ [(v, db, ping)]) |}).
      { f_equal.
        - unfold rounds_registry. by rewrite foldl_app.
        - rewrite rounds_events_app. subst tr1. unfold rounds_events at 2. simpl.
          unfold init_block. destruct ping; simpl; rewrite <- ?app_assoc; simpl;
            by rewrite ?app_nil_r. }
      cbv zeta in Hout, Hres |- *. rewrite Hst.
      rewrite <- (app_assoc done [(v, db, ping)] rounds) in Hout. simpl in Hout.
      split; [exact Hout|].
      destruct (InitDB_loop _ _ _ _ _ rest _).1 as [[]|p].
      * destruct Hres as [Hn Ht]. rewrite !fmap_cons. cbn [fst]. by rewrite Hn.
      * destruct Hres as (v' & rest' & e' & Hn & Hp & Ht).
        exists v', rest', e'. rewrite !fmap_cons. cbn [fst]. by rewrite Hn.
Qed.

Lemma dom_rounds_registry (rounds : init_rounds conn) :
  dom (rounds_registry rounds) = list_to_set (C:=gset string) rounds.*1.*1.
Proof.
  unfold rounds_registry.
  assert (H : forall reg : gmap string conn,
             dom (foldl (fun reg (r : string * conn * option error) => <[r.1.1 := r.1.2]> reg)
                        reg rounds)
             = dom reg ∪ list_to_set rounds.*1.*1).
  { induction rounds as [|[[v c] p] rounds IH]; intros reg; simpl.
    - by rewrite union_empty_r_L.
    - rewrite IH, dom_insert_L.
      by rewrite (union_comm_L {[v]} (dom reg)), <- union_assoc_L. }
  by rewrite H, dom_empty_L, union_empty_l_L.
Qed.

Lemma init_names_default (dbnames : list string) :
  (if decide (length dbnames = 0) then dbnames ++ ["db"] else dbnames) = init_names dbnames.
Proof. by destruct dbnames. Qed.

(** ** Which names are registered *)

(** X15. [InitDB] starts from an empty registry, so nothing registered
    before survives.  When it returns, the registered names are exactly its
    arguments, or [db] alone when it has none, whatever [db.Ping] replied;
    when [sqlx.Open] fails for a name it logs the error and panics with it,
    and the registered names are the arguments before that one. *)
Theorem InitDB_registers (dbnames : list string) (st : init_state conn) :
  let out := InitDB conn EnvString GetEnvInt sqlx_Open db_Ping dbnames st in
  match out.1 with
  | Ret _ => dom (registry out.2) = list_to_set (C:=gset string) (init_names dbnames)
  | Panic p =>
      exists before v rest e tr,
        init_names dbnames = before ++ v :: rest
        /\ dom (registry out.2) = list_to_set (C:=gset string) before
        /\ p = PanicMsg (Error e)
        /\ init_trace out.2
           = tr ++ [IvOpen "mysql" (init_dsn EnvString GetEnvInt v) (inl e);
                    IvLogError ["[MySQL] Connect Error: "; Error e]]
  end.
Proof.
  intros out. subst out. unfold InitDB. rewrite init_names_default.
  destruct (InitDB_loop_rounds (init_names dbnames) [] (init_trace st))
    as (rounds & tail & Hout & Hres).
  cbv zeta in Hout, Hres.
  change (rounds_events EnvString GetEnvInt []) with (@nil (init_event conn)) in Hout, Hres.
  change (rounds_registry []) with (∅ : gmap string conn) in Hout, Hres.
  rewrite app_nil_r in Hout, Hres. cbn [app] in Hout.
  rewrite Hout. cbn [registry init_trace].
  destruct (InitDB_loop _ _ _ _ _ _ _).1 as [[]|p].
  - destruct Hres as [Hn _]. by rewrite dom_rounds_registry, Hn.
  - destruct Hres as (v & rest & e & Hn & Hp & Ht).
    exists rounds.*1.*1, v, rest, e, (init_trace st ++ rounds_events EnvString GetEnvInt rounds).
    rewrite dom_rounds_registry, Ht, <- app_assoc. done.
Qed.

Lemma rounds_registry_last (r1 r2 : init_rounds conn) (v : string) (c : conn)
    (ping : option error) :
  v ∉ r2.*1.*1 -> rounds_registry (r1 ++ (v, c, ping) :: r2) !! v = Some c.
Proof.
  unfold rounds_registry. rewrite foldl_app. simpl.
  set (reg := foldl _ ∅ r1). clearbody reg. intros Hv.
  assert (H : forall reg0 : gmap string conn, reg0 !! v = Some c ->
             foldl (fun reg (r : string * conn * option error) => <[r.1.1 := r.1.2]> reg)
                   reg0 r2 !! v = Some c).
  { induction r2 as [|[[v' c'] p'] r2 IH]; intros reg0 H0; [done|]. simpl.
    rewrite !fmap_cons in Hv. cbn [fst] in Hv.
    apply not_elem_of_cons in Hv as [Hne Hv]. apply IH; [done|].
    by rewrite lookup_insert_ne. }
  apply H. apply lookup_insert_eq.
Qed.

(** ** The rounds of InitDB *)

(** X16. For every name it goes through, [InitDB] opens the [mysql] driver
    with the data source name formatted from the section of that name, sets
    the two pool sizes it reads from the section [db], whatever the name,
    pings, and closes the handle when the ping fails; the handle is
    registered under the name in both cases, and a name given twice ends up
    with the handle opened last. *)
Theorem InitDB_rounds (dbnames : list string) (st : init_state conn) :
  let out := InitDB conn EnvString GetEnvInt sqlx_Open db_Ping dbnames st in
  exists rounds tail,
    init_trace out.2 = init_trace st ++ rounds_events EnvString GetEnvInt rounds ++ tail
    /\ registry out.2 = rounds_registry rounds
    /\ (forall r1 v c ping r2,
          rounds = r1 ++ (v, c, ping) :: r2 -> v ∉ r2.*1.*1 ->
          registry out.2 !! v = Some c)
    /\ match out.1 with
       | Ret _ => rounds.*1.*1 = init_names dbnames /\ tail = []
       | Panic _ => exists v rest, init_names dbnames = rounds.*1.*1 ++ v :: rest
       end.
Proof.
  intros out. subst out. unfold InitDB. rewrite init_names_default.
  destruct (InitDB_loop_rounds (init_names dbnames) [] (init_trace st))
    as (rounds & tail & Hout & Hres).
  cbv zeta in Hout, Hres.
  change (rounds_events EnvString GetEnvInt []) with (@nil (init_event conn)) in Hout, Hres.
  change (rounds_registry []) with (∅ : gmap string conn) in Hout, Hres.
  rewrite app_nil_r in Hout, Hres. cbn [app] in Hout.
  exists rounds, tail. rewrite Hout. cbn [registry init_trace].
  split; [done|]. split; [done|]. split.
  - intros r1 v c ping r2 -> Hv. by apply rounds_registry_last.
  - destruct (InitDB_loop _ _ _ _ _ _ _).1 as [[]|p]; [done|].
    destruct Hres as (v & rest & e & Hn & _). eauto.
Qed.

(** ** InitDB and getDB *)

(** X17. After [InitDB] has returned, [getDB] finds a handle exactly for
    the receivers whose [DB] field is one of the names given to [InitDB], or
    is empty or [db] when [db] is among them, as it is when [InitDB] was
    called with no name; for every other receiver [getDB] panics. *)
Theorem InitDB_then_getDB (dbnames : list string) (st : init_state conn)
    (w : world) (m : MySQL) (s : store) :
  let out := InitDB conn EnvString GetEnvInt sqlx_Open db_Ping dbnames st in
  out.1 = Ret tt ->
  let w' := with_registry w (registry out.2) in
  (handle m ∈ init_names dbnames -> getDB w' m s = (Ret (handle m), s))
  /\ (handle m ∉ init_names dbnames ->
      getDB w' m s = (Panic (unregistered_panic m), extend s [unregistered_log m])).
Proof.
  intros out Hret w'.
  assert (Hdom : dbmap w' = list_to_set (C:=gset string) (init_names dbnames)).
  { subst w' out. unfold InitDB in *. rewrite init_names_default in *.
    destruct (InitDB_loop_rounds (init_names dbnames) [] (init_trace st))
      as (rounds & tail & Hout & Hres).
    cbv zeta in Hout, Hres.
    change (rounds_events EnvString GetEnvInt []) with (@nil (init_event conn)) in Hout, Hres.
    change (rounds_registry []) with (∅ : gmap string conn) in Hout, Hres.
    rewrite app_nil_r in Hout, Hres. cbn [app] in Hout.
    rewrite Hret in Hres. destruct Hres as [Hn _].
    unfold with_registry. cbn [dbmap]. by rewrite Hout, <- Hn, <- dom_rounds_registry. }
  split; intros Hm.
  - apply getDB_registered. rewrite Hdom. by apply elem_of_list_to_set.
  - apply getDB_unregistered. rewrite Hdom. by rewrite elem_of_list_to_set.
Qed.

End InitProperties.

Lemma InitDB_then_getDB_witness :
  let out := InitDB nat (fun _ _ d => d) (fun _ _ d => d) (fun tr _ _ => inr (length tr))
               (fun _ _ => Some (mkError "dial tcp: connection refused")) []
               (InitState (<["old" := 9]> ∅) []) in
  out.1 = Ret tt
  /\ registry out.2 = <["db" := 0]> ∅
  /\ getDB (with_registry sample_world (registry out.2)) (mkMySQL "" "user") (init None 0)
     = (Ret "db", init None 0).
Proof.
  cbv zeta. split; [reflexivity|]. split; [vm_compute; reflexivity|].
  refine (proj1 (InitDB_then_getDB nat (fun _ _ d => d) (fun _ _ d => d)
                   (fun tr _ _ => inr (length tr))
                   (fun _ _ => Some (mkError "dial tcp: connection refused")) []
                   (InitState (<["old" := 9]> ∅) []) sample_world (mkMySQL "" "user")
                   (init None 0) eq_refl) _).
  apply list_elem_of_here.
Defined.

Example InitDB_default_trace :
  init_trace (InitDB nat (fun _ _ d => d) (fun _ _ d => d) (fun tr _ _ => inr (length tr))
                (fun _ _ => Some (mkError "dial tcp: connection refused")) []
                (InitState ∅ [])).2
  = [IvOpen "mysql"
       "root:@tcp(localhost:3306)/test?charset=utf8mb4&collation=utf8_general_ci&parseTime=True&loc=Local"
       (inr 0);
     IvSetMaxOpenConns 0 20; IvSetMaxIdleConns 0 10;
     IvPing 0 (Some (mkError "dial tcp: connection refused")); IvClose 0].
Proof. vm_compute. reflexivity. Qed.

(** * ReturnJson *)

(** X18. [ReturnJson] always answers with the status 200, whatever the
    code; the object has the entries [code] and [msg], and an entry [data]
    only when a data argument is given, holding the first one; further data
    arguments are ignored. *)
Theorem ReturnJson_object (code : Z) (msg : string) (data : list value) :
  (ReturnJson code msg data).1 = 200%Z
  /\ (ReturnJson code msg data).2 !! "code" = Some (VInt code)
  /\ (ReturnJson code msg data).2 !! "msg" = Some (VString msg)
  /\ (ReturnJson code msg data).2 !! "data" = head data
  /\ dom (ReturnJson code msg data).2
     = ({["code"; "msg"]} ∪ (if data is [] then ∅ else {["data"]}) : gset string)
  /\ (forall d rest, ReturnJson code msg (d :: rest) = ReturnJson code msg [d]).
Proof.
  unfold ReturnJson. destruct data as [|d rest]; cbn [fst snd head].
  - split; [done|]. split; [by rewrite lookup_insert_ne, lookup_insert_eq by done|].
    split; [by rewrite lookup_insert_eq|]. split; [by rewrite !lookup_insert_ne by done|].
    split; [|done]. rewrite !dom_insert_L, dom_empty_L. set_solver.
  - split; [done|].
    split; [by rewrite !lookup_insert_ne, lookup_insert_eq by done|].
    split; [by rewrite lookup_insert_ne, lookup_insert_eq by done|].
    split; [by rewrite lookup_insert_eq|].
    split; [|done]. rewrite !dom_insert_L, dom_empty_L. set_solver.
Qed.
